(** * AudioAccessment: the assessment gateway of [server.js]

    A shallow embedding of the request pipeline of [server.js]: the upload
    layer, [cleanupFile], [retryOperation], the [POST /api/assessment]
    handler with its error classification, the error middleware and the 404
    handler, together with the properties the specification states about
    them.

    Conventions of the embedding.
    - A JavaScript string is a [string]; each character stands for one
      UTF-16 code unit below 256.
    - A JavaScript number that the code only counts with ([retryCount],
      [maxRetries], delays in milliseconds, sizes in bytes) is a [Z].
    - An [Error] object is the record of the fields the code reads.
    - The process state a request can observe or change is a [World]: the
      files on disk, the console, the timers awaited so far, and the state
      [X] of whatever the external collaborators close over.
    - A computation that may throw is a function from the world to an
      [outcome] and a new world; [None] stands for a loop that ran out of
      the recursion budget, which [retryOperation_total] excludes. *)

From Stdlib Require Import ZArith QArith Ascii String List Bool Lia DecimalString.
From Stdlib Require Import DecimalPos DecimalZ.
From stdpp Require Import base gmap strings list.

Open Scope Z_scope.

(** ** JavaScript built-ins used by the code *)

Module JS.

(** [s.includes(search)] *)
Fixpoint includes (s search : string) : bool :=
  String.prefix search s ||
  match s with
  | EmptyString => false
  | String _ rest => includes rest search
  end.

(** [s.startsWith(search)] *)
Definition startsWith (s search : string) : bool := String.prefix search s.

(** One code unit of [toLowerCase] on the Latin-1 range: [A-Z] and the
    accented capitals U+00C0..U+00DE (the multiplication sign U+00D7
    apart) move up by 32. *)
Definition lower_unit (c : ascii) : ascii :=
  let n := N_of_ascii c in
  if ((65 <=? n) && (n <=? 90))%N
     || ((192 <=? n) && (n <=? 222) && negb (n =? 215))%N
  then ascii_of_N (n + 32)
  else c.

(** [s.toLowerCase()] *)
Fixpoint toLowerCase (s : string) : string :=
  match s with
  | EmptyString => EmptyString
  | String c rest => String (lower_unit c) (toLowerCase rest)
  end.

(** [String(n)] for an integer [n], as a template literal formats it. *)
Definition Number_toString (n : Z) : string :=
  NilZero.string_of_int (Z.to_int n).

(** Truthiness of a value that is a string or [undefined]. *)
Definition truthy (s : option string) : bool :=
  match s with
  | Some (String _ _) => true
  | _ => false
  end.

End JS.

(** ** Errors, outcomes and the world *)

(** An [Error] object: its [message] and, for a [multer.MulterError], its
    [code]. *)
Record Error := mkErrorWith { message : string; multer_code : option string }.

(** [new Error(message)] *)
Definition mkError (message : string) : Error := mkErrorWith message None.

Inductive outcome (A : Type) : Type :=
| Resolved (a : A)
| Rejected (e : Error).
Arguments Resolved {A} a.
Arguments Rejected {A} e.

(** A line written to the console: [console.log(text, arg)] with a string
    argument, or [console.error(text, error)] with an error object. *)
Inductive LogLine :=
| LogMsg (text arg : string)
| LogErr (text : string) (error : Error).

Record World (X : Type) := mkWorld {
  ext : X;                    (* state of the external collaborators *)
  disk : gset string;         (* paths of the files that exist *)
  undeletable : gset string;  (* paths whose unlink the system refuses *)
  console : list LogLine;     (* lines logged, oldest first *)
  timers : list Z;            (* setTimeout delays awaited, oldest first *)
}.
Arguments mkWorld {X}.
Arguments ext {X}.
Arguments disk {X}.
Arguments undeletable {X}.
Arguments console {X}.
Arguments timers {X}.

Section WorldOps.
Context {X : Type}.

Definition with_ext (x : X) (w : World X) : World X :=
  mkWorld x (disk w) (undeletable w) (console w) (timers w).

Definition with_disk (d : gset string) (w : World X) : World X :=
  mkWorld (ext w) d (undeletable w) (console w) (timers w).

Definition console_log (text arg : string) (w : World X) : World X :=
  mkWorld (ext w) (disk w) (undeletable w)
          (console w ++ [LogMsg text arg]) (timers w).

Definition console_error (text : string) (e : Error) (w : World X) : World X :=
  mkWorld (ext w) (disk w) (undeletable w)
          (console w ++ [LogErr text e]) (timers w).

(** [await new Promise(resolve => setTimeout(resolve, ms))] *)
Definition setTimeout_await (ms : Z) (w : World X) : World X :=
  mkWorld (ext w) (disk w) (undeletable w) (console w) (timers w ++ [ms]).

End WorldOps.

(** ** The monad of throwing, world-passing computations *)

Definition M (X A : Type) : Type := World X -> option (outcome A * World X).

Section Monad.
Context {X : Type}.

Definition ret {A} (a : A) : M X A := fun w => Some (Resolved a, w).

Definition throw {A} (e : Error) : M X A := fun w => Some (Rejected e, w).

Definition bind {A B} (m : M X A) (k : A -> M X B) : M X B :=
  fun w =>
    match m w with
    | None => None
    | Some (Resolved a, w') => k a w'
    | Some (Rejected e, w') => Some (Rejected e, w')
    end.

(** [try { m } catch (error) { handler(error) }] *)
Definition try_catch {A} (m : M X A) (handler : Error -> M X A) : M X A :=
  fun w =>
    match m w with
    | None => None
    | Some (Resolved a, w') => Some (Resolved a, w')
    | Some (Rejected e, w') => handler e w'
    end.

(** An effect on the world that cannot throw. *)
Definition effect (f : World X -> World X) : M X unit :=
  fun w => Some (Resolved tt, f w).

End Monad.

Notation "'let*' x ':=' m 'in' k" := (bind m (fun x => k))
  (at level 10, x name, m at level 100, k at level 200).

(** ** The file system calls and [cleanupFile] (server.js, lines 55-63) *)

(** The error of an unlink the system refuses. *)
Definition unlink_refused (p : string) : Error :=
  mkError ("EPERM: operation not permitted, unlink '" +:+ p +:+ "'").

Section Files.
Context {X : Type}.

Definition fs_existsSync (p : string) (w : World X) : bool :=
  bool_decide (p ∈ disk w).

(** [fs.unlinkSync(p)]: removes an existing file the system lets go of,
    throws otherwise. *)
Definition fs_unlinkSync (p : string) : M X unit :=
  fun w =>
    if bool_decide (p ∈ disk w) then
      if bool_decide (p ∈ undeletable w) then
        throw (unlink_refused p) w
      else
        Some (Resolved tt, with_disk (disk w ∖ {[p]}) w)
    else
      throw (mkError ("ENOENT: no such file or directory, unlink '" +:+ p +:+ "'")) w.

Definition cleanupFile (filePath : option string) : M X unit :=
  fun w =>
    match filePath with
    | Some p =>
        if JS.truthy filePath && fs_existsSync p w then
          try_catch (fs_unlinkSync p)
                    (fun error => effect (console_error "Error cleaning up file:" error))
                    w
        else ret tt w
    | None => ret tt w
    end.

End Files.

(** ** [retryOperation] (server.js, lines 65-83) *)

Section Retry.
Context {X A : Type}.
Variable operation : X -> outcome A * X.
Variable maxRetries : Z.
Variable operationName : string.

Definition attempt_failed_text (retryCount : Z) : string :=
  operationName +:+ " attempt " +:+ JS.Number_toString retryCount +:+ " failed:".

Definition aggregated_error (error : Error) : Error :=
  mkError ("Failed to complete " +:+ JS.toLowerCase operationName +:+ " after "
           +:+ JS.Number_toString maxRetries +:+ " attempts: " +:+ message error).

(** The [while (retryCount < maxRetries)] loop; [budget] bounds the
    number of iterations.  The result [None] inside [Resolved] is the
    [undefined] the function yields when the loop ends without a
    [return].  The defaults of [maxRetries] and [operationName] play no
    part: both callers pass the two arguments. *)
Fixpoint retry_loop (budget : nat) (retryCount : Z) : M X (option A) :=
  fun w =>
    if retryCount <? maxRetries then
      match budget with
      | O => None
      | S budget' =>
          let (r, x') := operation (ext w) in
          let w := with_ext x' w in
          match r with
          | Resolved a => Some (Resolved (Some a), w)
          | Rejected error =>
              let retryCount := retryCount + 1 in
              let w := console_log (attempt_failed_text retryCount) (message error) w in
              if retryCount >=? maxRetries then
                throw (aggregated_error error) w
              else
                retry_loop budget' retryCount (setTimeout_await (1000 * retryCount) w)
          end
      end
    else Some (Resolved None, w).

Definition retryOperation : M X (option A) :=
  retry_loop (Z.to_nat maxRetries) 0.

End Retry.

(** ** [JSON.parse]

    The values [JSON.parse] builds and a recursive-descent parser for the
    JSON grammar of ECMA-404.  A string of a value is the list of its
    UTF-16 code units ([\uXXXX] escapes reach beyond 255).  A number is kept
    as the exact decimal [mant * 10 ^ exp10] its literal denotes; the
    rounding to a binary64 is not modelled.  An object lists its own
    properties in creation order, a repeated key overwriting the earlier
    value in place. *)

Module JSON.

#[local] Set Warnings "-register-all".

Inductive value :=
| JNull
| JBool (b : bool)
| JNumber (mant exp10 : Z)
| JString (s : list N)
| JArray (items : list value)
| JObject (props : list (list N * value)).

(** The code units of a string literal of the source. *)
Fixpoint units (s : string) : list N :=
  match s with
  | EmptyString => []
  | String c rest => N_of_ascii c :: units rest
  end.

Definition units_eqb (a b : list N) : bool := bool_decide (a = b).

(** [obj[key] = v] on the property list under construction. *)
Fixpoint define (key : list N) (v : value) (props : list (list N * value))
  : list (list N * value) :=
  match props with
  | [] => [(key, v)]
  | (k, old) :: rest =>
      if units_eqb k key then (k, v) :: rest
      else (k, old) :: define key v rest
  end.

(** Result of a parsing function: a value and the unread text, a
    [SyntaxError], or a recursion budget that did not suffice. *)
Inductive parsed (A : Type) : Type :=
| Ok (a : A) (rest : string)
| SyntaxError
| Exhausted.
Arguments Ok {A} a rest.
Arguments SyntaxError {A}.
Arguments Exhausted {A}.

Definition is_ws (c : ascii) : bool :=
  let n := N_of_ascii c in
  ((n =? 9) || (n =? 10) || (n =? 13) || (n =? 32))%N.

Fixpoint skip_ws (s : string) : string :=
  match s with
  | String c rest => if is_ws c then skip_ws rest else s
  | EmptyString => s
  end.

Fixpoint strip_prefix (lit s : string) : option string :=
  match lit, s with
  | EmptyString, _ => Some s
  | String a lit', String b s' =>
      if Ascii.eqb a b then strip_prefix lit' s' else None
  | String _ _, EmptyString => None
  end.

Definition digit_val (c : ascii) : option Z :=
  let n := N_of_ascii c in
  if ((48 <=? n) && (n <=? 57))%N then Some (Z.of_N (n - 48)) else None.

Definition hex_val (c : ascii) : option N :=
  let n := N_of_ascii c in
  if ((48 <=? n) && (n <=? 57))%N then Some (n - 48)%N
  else if ((65 <=? n) && (n <=? 70))%N then Some (n - 55)%N
  else if ((97 <=? n) && (n <=? 102))%N then Some (n - 87)%N
  else None.

Definition hex4 (a b c d : ascii) : option N :=
  match hex_val a, hex_val b, hex_val c, hex_val d with
  | Some x, Some y, Some z, Some t => Some (((x * 16 + y) * 16 + z) * 16 + t)%N
  | _, _, _, _ => None
  end.

(** The characters of a string literal after its opening quote, up to
    and including the closing quote. *)
Fixpoint parse_string_chars (s : string) (acc : list N) : parsed (list N) :=
  match s with
  | EmptyString => SyntaxError
  | String c rest =>
      let n := N_of_ascii c in
      if (n =? 34)%N then Ok (rev acc) rest
      else if (n <? 32)%N then SyntaxError
      else if (n =? 92)%N then
        match rest with
        | EmptyString => SyntaxError
        | String e rest' =>
            match N_of_ascii e with
            | 34%N => parse_string_chars rest' (34%N :: acc)
            | 92%N => parse_string_chars rest' (92%N :: acc)
            | 47%N => parse_string_chars rest' (47%N :: acc)
            | 98%N => parse_string_chars rest' (8%N :: acc)
            | 102%N => parse_string_chars rest' (12%N :: acc)
            | 110%N => parse_string_chars rest' (10%N :: acc)
            | 114%N => parse_string_chars rest' (13%N :: acc)
            | 116%N => parse_string_chars rest' (9%N :: acc)
            | 117%N =>
                match rest' with
                | String h1 (String h2 (String h3 (String h4 rest''))) =>
                    match hex4 h1 h2 h3 h4 with
                    | Some u => parse_string_chars rest'' (u :: acc)
                    | None => SyntaxError
                    end
                | _ => SyntaxError
                end
            | _ => SyntaxError
            end
        end
      else parse_string_chars rest (n :: acc)
  end.

(** Zero or more decimal digits: the number read so far, how many digits
    were read, and the unread text. *)
Fixpoint digits (s : string) (acc count : Z) : Z * Z * string :=
  match s with
  | String c rest =>
      match digit_val c with
      | Some d => digits rest (10 * acc + d) (count + 1)
      | None => (acc, count, s)
      end
  | EmptyString => (acc, count, s)
  end.

Definition head_is (c : ascii) (s : string) : bool :=
  match s with
  | String a _ => Ascii.eqb a c
  | EmptyString => false
  end.

Definition tail (s : string) : string :=
  match s with
  | String _ rest => rest
  | EmptyString => EmptyString
  end.

(** The exponent part of a number, if any: [e] or [E], an optional sign,
    one digit or more. *)
Definition parse_exponent (s : string) : parsed Z :=
  if head_is "e" s || head_is "E" s then
    let s1 := tail s in
    let negative := head_is "-" s1 in
    let s2 := if negative || head_is "+" s1 then tail s1 else s1 in
    let '(e, count, rest) := digits s2 0 0 in
    if count =? 0 then SyntaxError
    else Ok (if negative then - e else e) rest
  else Ok 0 s.

(** The fraction part of a number, if any, continuing the mantissa [m]:
    the new mantissa and the number of fraction digits. *)
Definition parse_fraction (m : Z) (s : string) : parsed (Z * Z) :=
  if head_is "." s then
    let '(m', count, rest) := digits (tail s) m 0 in
    if count =? 0 then SyntaxError else Ok (m', count) rest
  else Ok (m, 0) s.

(** The integer part of a number: a lone [0], or a digit from 1 to 9 and
    further digits. *)
Definition parse_integer (s : string) : parsed Z :=
  if head_is "0" s then Ok 0 (tail s)
  else
    let '(m, count, rest) := digits s 0 0 in
    if count =? 0 then SyntaxError else Ok m rest.

Definition parse_number (s : string) : parsed value :=
  let negative := head_is "-" s in
  let s1 := if negative then tail s else s in
  match parse_integer s1 with
  | Ok m s2 =>
      match parse_fraction m s2 with
      | Ok (m', places) s3 =>
          match parse_exponent s3 with
          | Ok e rest => Ok (JNumber (if negative then - m' else m') (e - places)) rest
          | SyntaxError => SyntaxError
          | Exhausted => Exhausted
          end
      | SyntaxError => SyntaxError
      | Exhausted => Exhausted
      end
  | SyntaxError => SyntaxError
  | Exhausted => Exhausted
  end.

Definition parse_literal (lit : string) (v : value) (s : string) : parsed value :=
  match strip_prefix lit s with
  | Some rest => Ok v rest
  | None => SyntaxError
  end.

Definition quote : ascii := ascii_of_N 34.

Fixpoint parse_value (budget : nat) (s : string) : parsed value :=
  match budget with
  | O => Exhausted
  | S budget =>
      let s := skip_ws s in
      if head_is "{" s then
        if head_is "}" (skip_ws (tail s)) then Ok (JObject []) (tail (skip_ws (tail s)))
        else parse_members budget (tail s) []
      else if head_is "[" s then
        if head_is "]" (skip_ws (tail s)) then Ok (JArray []) (tail (skip_ws (tail s)))
        else parse_elements budget (tail s) []
      else if head_is quote s then
        match parse_string_chars (tail s) [] with
        | Ok u rest => Ok (JString u) rest
        | SyntaxError => SyntaxError
        | Exhausted => Exhausted
        end
      else if head_is "t" s then parse_literal "true" (JBool true) s
      else if head_is "f" s then parse_literal "false" (JBool false) s
      else if head_is "n" s then parse_literal "null" JNull s
      else parse_number s
  end
with parse_elements (budget : nat) (s : string) (acc : list value) : parsed value :=
  match budget with
  | O => Exhausted
  | S budget =>
      match parse_value budget s with
      | Ok v rest =>
          let rest := skip_ws rest in
          if head_is "," rest then parse_elements budget (tail rest) (v :: acc)
          else if head_is "]" rest then Ok (JArray (rev (v :: acc))) (tail rest)
          else SyntaxError
      | SyntaxError => SyntaxError
      | Exhausted => Exhausted
      end
  end
with parse_members (budget : nat) (s : string) (acc : list (list N * value)) : parsed value :=
  match budget with
  | O => Exhausted
  | S budget =>
      let s := skip_ws s in
      if head_is quote s then
        match parse_string_chars (tail s) [] with
        | Ok key rest =>
            let rest := skip_ws rest in
            if head_is ":" rest then
              match parse_value budget (tail rest) with
              | Ok v rest =>
                  let rest := skip_ws rest in
                  if head_is "," rest then parse_members budget (tail rest) (define key v acc)
                  else if head_is "}" rest then Ok (JObject (define key v acc)) (tail rest)
                  else SyntaxError
              | SyntaxError => SyntaxError
              | Exhausted => Exhausted
              end
            else SyntaxError
        | SyntaxError => SyntaxError
        | Exhausted => Exhausted
        end
      else SyntaxError
  end.

(** The whole text is one value between optional white space. *)
Definition parse_text (budget : nat) (text : string) : parsed value :=
  match parse_value budget text with
  | Ok v rest =>
      match skip_ws rest with
      | EmptyString => Ok v EmptyString
      | String _ _ => SyntaxError
      end
  | SyntaxError => SyntaxError
  | Exhausted => Exhausted
  end.

(** [JSON.parse(text)]: [None] when it throws a [SyntaxError]. *)
Definition parse (text : string) : option value :=
  match parse_text (2 * String.length text + 1) text with
  | Ok v _ => Some v
  | SyntaxError => None
  | Exhausted => None
  end.

(** [obj[key]] for reading: the property of an object, if any. *)
Fixpoint lookup (key : list N) (props : list (list N * value)) : option value :=
  match props with
  | [] => None
  | (k, v) :: rest => if units_eqb k key then Some v else lookup key rest
  end.

Definition get (key : string) (v : value) : option value :=
  match v with
  | JObject props => lookup (units key) props
  | _ => None
  end.

End JSON.

(** ** Requests, responses and the external collaborators *)

(** The [audio] part of a multipart body, as the upload layer sees it. *)
Record Upload := mkUpload {
  upload_originalname : string;
  upload_mimetype : string;
  upload_size : Z;
}.

Record Multipart := mkMultipart {
  audio : option Upload;
  question_field : option string;
}.

(** [req.file] *)
Record File := mkFile {
  path : string;
  filename : string;
  originalname : string;
  size : Z;
}.

(** What the handler reads of [req]: [req.file] and [req.body.question]. *)
Record Request := mkRequest {
  file : option File;
  question : option string;
}.

(** The part of a chat completion the handler reads:
    [choices[0].message.content], where [content] may be [null]. *)
Record ChatMessage := mkChatMessage { content : option string }.
Record Choice := mkChoice { choice_message : ChatMessage }.
Record ChatCompletion := mkChatCompletion { choices : list Choice }.

(** The two capabilities of the OpenAI client and the clock, black boxes
    over their own state [X].  [transcriptions_create p] stands for
    [openai.audio.transcriptions.create] on a read stream of the file [p]
    with model [whisper-1] and text output; [completions_create u] for
    [openai.chat.completions.create] with model [gpt-4o-mini], the constant
    system message of the source and the user message [u]. *)
Record Services (X : Type) := mkServices {
  transcriptions_create : string -> X -> outcome string * X;
  completions_create : string -> X -> outcome ChatCompletion * X;
  toISOString_now : X -> string;
}.
Arguments mkServices {X}.
Arguments transcriptions_create {X}.
Arguments completions_create {X}.
Arguments toISOString_now {X}.

(** Process configuration read at start-up, and [path.extname]. *)
Record Config := mkConfig {
  uploadsDir : string;
  maxFileSize : Z;
  path_extname : string -> string;
}.

Record Metadata := mkMetadata {
  audioFile : string;
  originalName : string;
  fileSize : Z;
  model : string;
  transcriptionModel : string;
  evaluatedAt : string;
}.

(** The JSON bodies the server sends. *)
Inductive Body :=
| ErrorMessageBody (error message : string)
| ErrorDetailsBody (error details : string)
| FileTooLargeBody (error message : string) (maxSize : Z)
| NotFoundBody (error message availableEndpoint : string)
| AssessmentBody (success : bool) (question : string)
                 (transcription : option string)
                 (assessment : JSON.value) (metadata : Metadata).

Record Response := mkResponse { status : Z; body : Body }.

(** ** The upload layer (server.js, lines 29-52)

    [upload.single('audio')] with the disk storage of the source, after
    multer's documented behaviour: a part the filter refuses is not stored,
    a part over the size limit leaves no file behind, an accepted part is
    written under [uploadsDir] before the handler runs. *)

Section Upload.
Context {X : Type}.
Variable cfg : Config.

(** [Date.now() + '-' + Math.round(Math.random() * 1E9)], then
    ['audio-' + uniqueSuffix + path.extname(file.originalname)]. *)
Definition storage_filename (now rnd : Z) (u : Upload) : string :=
  let uniqueSuffix := JS.Number_toString now +:+ "-" +:+ JS.Number_toString rnd in
  "audio-" +:+ uniqueSuffix +:+ path_extname cfg (upload_originalname u).

(** [path.join(destination, filename)], the directory as configured. *)
Definition storage_path (name : string) : string :=
  uploadsDir cfg +:+ "/" +:+ name.

Definition fileFilter (u : Upload) : bool :=
  JS.startsWith (upload_mimetype u) "audio/".

Definition upload_single (now rnd : Z) (m : Multipart) : M X Request :=
  match audio m with
  | None => ret (mkRequest None (question_field m))
  | Some u =>
      if fileFilter u then
        if upload_size u >? maxFileSize cfg then
          throw (mkErrorWith "File too large" (Some "LIMIT_FILE_SIZE"))
        else
          let name := storage_filename now rnd u in
          let* _ := effect (fun w => with_disk ({[storage_path name]} ∪ disk w) w) in
          ret (mkRequest
                 (Some (mkFile (storage_path name) name
                               (upload_originalname u) (upload_size u)))
                 (question_field m))
      else throw (mkError "Only audio files are allowed!")
  end.

End Upload.

(** ** The assessment handler (server.js, lines 86-219) *)

Definition newline : string := String (ascii_of_N 10) EmptyString.
Definition dquote : string := String JSON.quote EmptyString.

(** The object literal of lines 172-183. *)
Definition fallback_evaluation : JSON.value :=
  JSON.JObject
    [ (JSON.units "strengths", JSON.JArray [JSON.JString (JSON.units "Good effort")]);
      (JSON.units "areasToImprove",
       JSON.JArray [JSON.JString (JSON.units "Could improve structure")]);
      (JSON.units "perfectDefinition",
       JSON.JString (JSON.units "A comprehensive answer with clear examples"));
      (JSON.units "encouragement", JSON.JString (JSON.units "Keep practicing!"));
      (JSON.units "score",
       JSON.JObject
         [ (JSON.units "content", JSON.JNumber 3 0);
           (JSON.units "clarity", JSON.JNumber 2 0);
           (JSON.units "completeness", JSON.JNumber 1 0);
           (JSON.units "total", JSON.JNumber 6 0) ]) ].

(** The first error message the [catch] block recognises decides. *)
Definition errorMessage (message : string) : string :=
  if JS.includes message "ECONNRESET" then
    "Network connection issue. Please check your internet connection and try again."
  else if JS.includes message "API key" then
    "OpenAI API key issue. Please check your configuration."
  else if JS.includes message "rate limit" then
    "OpenAI rate limit exceeded. Please wait a moment and try again."
  else "Failed to assess audio".

Section Handler.
Context {X : Type}.
Variable svc : Services X.

(** A template literal prints [undefined] for a missing value. *)
Definition template_string (s : option string) : string :=
  match s with
  | Some s => s
  | None => "undefined"
  end.

(** The user message of lines 150-152. *)
Definition user_content (question : string) (transcription : option string) : string :=
  "Question: " +:+ question +:+ newline +:+ newline
  +:+ "Student's Audio Response (Transcribed): "
  +:+ dquote +:+ template_string transcription +:+ dquote +:+ newline +:+ newline
  +:+ "Please evaluate this response and provide feedback in the required JSON format.".

(** [JSON.parse(evaluationResponse.choices[0].message.content)]: throws a
    [TypeError] when the response or its first choice is [undefined], a
    [SyntaxError] when the text is not JSON; a [null] content is parsed
    as the text [null].  The texts of these errors are the engine's and
    are not modelled beyond their names. *)
Definition parse_content (evaluationResponse : option ChatCompletion) : M X JSON.value :=
  match evaluationResponse with
  | None => throw (mkError "TypeError")
  | Some r =>
      match choices r with
      | [] => throw (mkError "TypeError")
      | c :: _ =>
          match JSON.parse (match content (choice_message c) with
                            | Some text => text
                            | None => "null"
                            end) with
          | Some v => ret v
          | None => throw (mkError "SyntaxError")
          end
      end
  end.

(** Lines 166-184. *)
Definition parse_evaluation (evaluationResponse : option ChatCompletion) : M X JSON.value :=
  try_catch (parse_content evaluationResponse)
            (fun parseError =>
               let* _ := effect (console_error "Error parsing evaluation JSON:" parseError) in
               ret fallback_evaluation).

Definition assessment_try (req : Request) : M X Response :=
  match file req with
  | None =>
      ret (mkResponse 400 (ErrorMessageBody "No audio file provided"
                             "Please provide an audio file in the request"))
  | Some f =>
      if negb (JS.truthy (question req)) then
        ret (mkResponse 400 (ErrorMessageBody "No question provided"
                               "Please provide a question in the request body"))
      else
        (* req.body.question is a non-empty string from here on *)
        let question := template_string (question req) in
        let audioFilePath := path f in
        let* transcription :=
          retryOperation (transcriptions_create svc audioFilePath) 3 "Transcription" in
        let* evaluationResponse :=
          retryOperation (completions_create svc (user_content question transcription))
                         3 "Evaluation" in
        let* _ := cleanupFile (Some audioFilePath) in
        let* evaluation := parse_evaluation evaluationResponse in
        fun w =>
          ret (mkResponse 200
                 (AssessmentBody true question transcription evaluation
                    (mkMetadata (filename f) (originalname f) (size f)
                                "gpt-4o-mini" "whisper-1"
                                (toISOString_now svc (ext w))))) w
  end.

Definition assessment_catch (req : Request) (error : Error) : M X Response :=
  let* _ := effect (console_error "Error assessing audio:" error) in
  let* _ := cleanupFile (option_map path (file req)) in
  ret (mkResponse 500 (ErrorDetailsBody (errorMessage (message error)) (message error))).

Definition assessment_handler (req : Request) : M X Response :=
  try_catch (assessment_try req) (assessment_catch req).

End Handler.

(** ** The error middleware and the 404 handler (server.js, lines 221-248) *)

Section Middleware.
Context {X : Type}.
Variable cfg : Config.

Definition error_middleware (error : Error) : M X Response :=
  let* _ := effect (console_error "Server error:" error) in
  match multer_code error with
  | Some code =>
      if String.eqb code "LIMIT_FILE_SIZE" then
        ret (mkResponse 413 (FileTooLargeBody "File too large"
                               "The uploaded file exceeds the maximum allowed size"
                               (maxFileSize cfg)))
      else ret (mkResponse 500 (ErrorMessageBody "Internal server error" (message error)))
  | None => ret (mkResponse 500 (ErrorMessageBody "Internal server error" (message error)))
  end.

(** The route [app.post('/api/assessment', upload.single('audio'), ...)]
    for one request: the upload layer, then the handler; an error of the
    upload layer goes to the error middleware. *)
Definition post_assessment (svc : Services X) (now rnd : Z) (m : Multipart) : M X Response :=
  fun w =>
    match upload_single cfg now rnd m w with
    | None => None
    | Some (Resolved req, w') => assessment_handler svc req w'
    | Some (Rejected e, w') => error_middleware e w'
    end.

End Middleware.

(** The path the assessment route is registered under (line 86). *)
Definition assessment_route : string := "/api/assessment".

Definition not_found_handler (method originalUrl : string) : Response :=
  mkResponse 404
    (NotFoundBody "Endpoint not found"
       ("The endpoint " +:+ method +:+ " " +:+ originalUrl +:+ " does not exist")
       "POST /api/assess").

(** ** Notions the properties are stated with *)

Section Runs.
Context {X A : Type}.
Variable operation : X -> outcome A * X.

(** [failing_run x errors x']: invoked again and again from the state
    [x], the operation fails once for each of [errors], in this order,
    and leaves the state [x']. *)
Inductive failing_run : X -> list Error -> X -> Prop :=
| failing_nil x : failing_run x [] x
| failing_cons x e x1 errors x' :
    operation x = (Rejected e, x1) ->
    failing_run x1 errors x' ->
    failing_run x (e :: errors) x'.

(** The operation wrapped in a mock that counts its invocations. *)
Definition counted (s : X * nat) : outcome A * (X * nat) :=
  let (r, x') := operation (fst s) in (r, (x', S (snd s))).

End Runs.

Definition with_counter {X} (n : nat) (w : World X) : World (X * nat) :=
  mkWorld (ext w, n) (disk w) (undeletable w) (console w) (timers w).

(** The delays awaited after the failed attempts [retryCount + 1], ...,
    [retryCount + k]: the attempt index times one second. *)
Fixpoint backoff_delays (retryCount : Z) (k : nat) : list Z :=
  match k with
  | O => []
  | S k' => 1000 * (retryCount + 1) :: backoff_delays (retryCount + 1) k'
  end.

(** The console lines of the failed attempts [retryCount + 1], ... *)
Fixpoint failure_lines (operationName : string) (retryCount : Z) (errors : list Error)
  : list LogLine :=
  match errors with
  | [] => []
  | e :: errors' =>
      LogMsg (attempt_failed_text operationName (retryCount + 1)) (message e)
      :: failure_lines operationName (retryCount + 1) errors'
  end.

(** The text the handler hands to [JSON.parse], when there is one. *)
Definition generated_text (evaluationResponse : option ChatCompletion) : option string :=
  match evaluationResponse with
  | Some r =>
      match choices r with
      | c :: _ => Some (match content (choice_message c) with
                        | Some text => text
                        | None => "null"
                        end)
      | [] => None
      end
  | None => None
  end.

(** The Assessment of the data model (spec, section 3). *)
Module Assessment.
Import JSON.

(** The number a decimal [mant * 10 ^ exp10] denotes. *)
Definition decimal (mant exp10 : Z) : Q :=
  if 0 <=? exp10 then inject_Z (mant * 10 ^ exp10)
  else Qmake mant (Z.to_pos (10 ^ (- exp10))).

Definition number (v : option value) : option Q :=
  match v with
  | Some (JNumber m e) => Some (decimal m e)
  | _ => None
  end.

Definition in_rubric (q : Q) : bool := Qle_bool 0 q && Qle_bool q 5.

Definition is_integer (q : Q) : bool := (Qden (Qred q) =? 1)%positive.

(** [total == content + clarity + completeness], each of the three
    within [0,5]. *)
Definition score_invariant (assessment : value) : bool :=
  match get "score" assessment with
  | Some score =>
      match number (get "content" score), number (get "clarity" score),
            number (get "completeness" score), number (get "total" score) with
      | Some c, Some l, Some m, Some t =>
          Qeq_bool t (c + l + m) && in_rubric c && in_rubric l && in_rubric m
      | _, _, _, _ => false
      end
  | None => false
  end.

Definition integer_scores (assessment : value) : bool :=
  match get "score" assessment with
  | Some score =>
      match number (get "content" score), number (get "clarity" score),
            number (get "completeness" score), number (get "total" score) with
      | Some c, Some l, Some m, Some t =>
          is_integer c && is_integer l && is_integer m && is_integer t
      | _, _, _, _ => false
      end
  | None => false
  end.

Definition is_string (v : value) : bool :=
  match v with
  | JString _ => true
  | _ => false
  end.

(** A sequence of 2-4 strings. *)
Definition points (v : option value) : bool :=
  match v with
  | Some (JArray items) =>
      forallb is_string items
      && (2 <=? length items)%nat && (length items <=? 4)%nat
  | _ => false
  end.

Definition text (v : option value) : bool :=
  match v with
  | Some (JString _) => true
  | _ => false
  end.

Definition field_count (v : value) : nat :=
  match v with
  | JObject props => length props
  | _ => 0%nat
  end.

(** Exactly five fields: two sequences of 2-4 strings, two strings and a
    score of integers between 0 and 5 with their sum. *)
Definition well_formed (assessment : value) : bool :=
  (field_count assessment =? 5)%nat
  && points (get "strengths" assessment)
  && points (get "areasToImprove" assessment)
  && text (get "perfectDefinition" assessment)
  && text (get "encouragement" assessment)
  && score_invariant assessment
  && integer_scores assessment.

End Assessment.

(** ** A scenario for the examples *)

Module Demo.

Definition cfg : Config := mkConfig "uploads" (10 * 1024 * 1024) (fun _ => ".mp3").

(** Collaborators whose n-th call yields the n-th outcome of a script;
    their state counts the calls received by each. *)
Definition services (stt : nat -> outcome string) (chat : nat -> outcome ChatCompletion)
  : Services (nat * nat)%type :=
  mkServices (fun _ s => (stt (fst s), (S (fst s), snd s)))
             (fun _ s => (chat (snd s), (fst s, S (snd s))))
             (fun _ => "2024-01-15T10:30:00.000Z").

Definition upload : Upload := mkUpload "answer.mp3" "audio/mpeg" 2048.

Definition stored : string := "uploads/audio-1700000000000-42.mp3".

Definition world : World (nat * nat)%type := mkWorld (0, 0)%nat ∅ ∅ [] [].

(** A world where the system refuses to unlink the stored upload. *)
Definition locked_world : World (nat * nat)%type := mkWorld (0, 0)%nat ∅ {[stored]} [] [].

Definition heard (_ : nat) : outcome string :=
  Resolved "Plants turn light into sugar.".

Definition unreachable {A} (_ : nat) : outcome A :=
  Rejected (mkError "read ECONNRESET").

Definition answers (text : string) (_ : nat) : outcome ChatCompletion :=
  Resolved (mkChatCompletion [mkChoice (mkChatMessage (Some text))]).

Definition quoted (s : string) : string := dquote +:+ s +:+ dquote.

(** The JSON text of an object that holds a score and nothing else. *)
Definition score_text (content clarity completeness total : string) : string :=
  "{" +:+ quoted "score" +:+ ":{" +:+ quoted "content" +:+ ":" +:+ content +:+ ","
  +:+ quoted "clarity" +:+ ":" +:+ clarity +:+ ","
  +:+ quoted "completeness" +:+ ":" +:+ completeness +:+ ","
  +:+ quoted "total" +:+ ":" +:+ total +:+ "}}".

(** A score that does not add up: 5 + 5 + 5 against 3. *)
Definition skewed_score : string := score_text "5" "5" "5" "3".

Definition sound_score : string := score_text "4" "3" "5" "12".

Definition skewed_assessment : JSON.value :=
  JSON.JObject
    [ (JSON.units "score",
       JSON.JObject
         [ (JSON.units "content", JSON.JNumber 5 0);
           (JSON.units "clarity", JSON.JNumber 5 0);
           (JSON.units "completeness", JSON.JNumber 5 0);
           (JSON.units "total", JSON.JNumber 3 0) ]) ].

Definition metadata : Metadata :=
  mkMetadata "audio-1700000000000-42.mp3" "answer.mp3" 2048
             "gpt-4o-mini" "whisper-1" "2024-01-15T10:30:00.000Z".

Definition request : Multipart := mkMultipart (Some upload) (Some "What is photosynthesis?").

(** An operation that times out on its first two invocations and answers
    from the third on; its state counts the invocations. *)
Definition flaky (n : nat) : outcome string * nat :=
  if (n <? 2)%nat then (Rejected (mkError "socket hang up"), S n)
  else (Resolved "done", S n).

(** An operation that never succeeds. *)
Definition broken (n : nat) : outcome string * nat :=
  (Rejected (mkError "rate limit reached"), S n).

Definition idle : World nat := mkWorld 0%nat ∅ ∅ [] [].

End Demo.

(** ** Process configuration (server.js, lines 24, 43 and 230) *)

Module Env.

(** The white space [parseInt] and [trim] skip, on the Latin-1 range: tab,
    line feed, vertical tab, form feed, carriage return, space and the
    no-break space. *)
Definition is_space (c : ascii) : bool :=
  let n := N_of_ascii c in
  ((9 <=? n) && (n <=? 13) || (n =? 32) || (n =? 160))%N.

Fixpoint trimStart (s : string) : string :=
  match s with
  | String c rest => if is_space c then trimStart rest else s
  | EmptyString => s
  end.

(** The value of a character as a digit: [0-9], then [a-z] or [A-Z] from
    ten on. *)
Definition digit (c : ascii) : option Z :=
  let n := N_of_ascii c in
  if ((48 <=? n) && (n <=? 57))%N then Some (Z.of_N (n - 48))
  else if ((97 <=? n) && (n <=? 122))%N then Some (Z.of_N (n - 87))
  else if ((65 <=? n) && (n <=? 90))%N then Some (Z.of_N (n - 55))
  else None.

(** The longest prefix of digits below [radix], read as a number; [acc] is
    the number read so far, [None] before the first digit. *)
Fixpoint read_digits (radix : Z) (s : string) (acc : option Z) : option Z :=
  match s with
  | String c rest =>
      match digit c with
      | Some d =>
          if d <? radix then
            read_digits radix rest
              (Some (radix * match acc with Some a => a | None => 0 end + d))
          else acc
      | None => acc
      end
  | EmptyString => acc
  end.

(** [parseInt(input)] without a radix, [None] for [NaN]: the argument is
    turned into a string, leading white space and a sign are skipped, a
    prefix [0x] selects base 16, and the digits that follow are read as
    far as they go.  The integer is exact; the rounding to a binary64 past
    2^53 is not modelled. *)
Definition parseInt (input : option string) : option Z :=
  let s := trimStart (template_string input) in
  let negative := JSON.head_is "-" s in
  let s := if negative || JSON.head_is "+" s then JSON.tail s else s in
  let hex := JS.startsWith s "0x" || JS.startsWith s "0X" in
  let s := if hex then JSON.tail (JSON.tail s) else s in
  match read_digits (if hex then 16 else 10) s None with
  | Some n => Some (if negative then - n else n)
  | None => None
  end.

(** [n || fallback] for a number [n]: [NaN] and zero are falsy. *)
Definition number_or (n : option Z) (fallback : Z) : Z :=
  match n with
  | Some 0 => fallback
  | Some n => n
  | None => fallback
  end.

(** [s || fallback] for a string or [undefined]. *)
Definition string_or (s : option string) (fallback : string) : string :=
  match s with
  | Some (String c rest) => String c rest
  | _ => fallback
  end.

(** [parseInt(process.env.MAX_FILE_SIZE) || 10 * 1024 * 1024], the
    expression of the upload limit (line 43) and of [maxSize] in the 413
    body (line 230). *)
Definition max_file_size (env : gmap string string) : Z :=
  number_or (parseInt (env !! "MAX_FILE_SIZE")) (10 * 1024 * 1024).

(** [process.env.UPLOAD_PATH || './uploads'] *)
Definition uploads_dir (env : gmap string string) : string :=
  string_or (env !! "UPLOAD_PATH") "./uploads".

(** The configuration the server runs with under the environment [env]. *)
Definition load (env : gmap string string) (extname : string -> string) : Config :=
  mkConfig (uploads_dir env) (max_file_size env) extname.

End Env.

(** ** The set-up script (setup.js)

    The script talks to a terminal: it prints, asks questions that the
    lines of [stdin] answer in turn, and writes the file [.env].  The
    pictographs of its console texts are kept as the bytes of the source
    file. *)

Module Setup.

Inductive Ending :=
| Cancelled      (* an existing .env was kept *)
| KeyRequired    (* no API key was given *)
| Completed      (* .env was written *)
| Failed         (* an error was caught and reported *)
| Stalled.       (* the input ended before a question was answered *)

Record Terminal := mkTerminal {
  stdin : list string;            (* the lines still to be typed *)
  files : gmap string string;     (* the files on disk and their contents *)
  write_error : option string;    (* message of the error a write throws, if any *)
  printed : list string;          (* prompts and console lines, oldest first *)
}.

(** A step of the script: it ends the run or goes on with a value. *)
Definition Script (A : Type) : Type := Terminal -> (Ending + A) * Terminal.

Definition pure {A} (a : A) : Script A := fun t => (inr a, t).

Definition finish {A} (e : Ending) : Script A := fun t => (inl e, t).

Definition andThen {A B} (m : Script A) (k : A -> Script B) : Script B :=
  fun t =>
    match m t with
    | (inl e, t') => (inl e, t')
    | (inr a, t') => k a t'
    end.

Definition print (line : string) : Script unit :=
  fun t => (inr tt, mkTerminal (stdin t) (files t) (write_error t) (printed t ++ [line])).

(** [await question(prompt)]: the prompt is written and the next line of
    input is the answer; without one the promise never settles. *)
Definition question (prompt : string) : Script string :=
  fun t =>
    let t' := mkTerminal (tl (stdin t)) (files t) (write_error t) (printed t ++ [prompt]) in
    match stdin t with
    | answer :: _ => (inr answer, t')
    | [] => (inl Stalled, t')
    end.

Definition fs_existsSync (p : string) : Script bool :=
  fun t => (inr (bool_decide (is_Some (files t !! p))), t).

(** [fs.writeFileSync(p, content)] inside the [try]: the [catch] block
    reports the error of a refused write and the run ends. *)
Definition fs_writeFileSync (p content : string) : Script unit :=
  fun t =>
    match write_error t with
    | Some message =>
        (inl Failed,
         mkTerminal (stdin t) (files t) (write_error t)
                    (printed t ++ ["❌ Setup failed: " +:+ message]))
    | None =>
        (inr tt, mkTerminal (stdin t) (<[p := content]> (files t)) (write_error t) (printed t))
    end.

Definition trim (s : string) : string :=
  String.rev (Env.trimStart (String.rev (Env.trimStart s))).

(** [parseInt(maxFileSize) * 1024 * 1024] in a template literal. *)
Definition megabytes (maxFileSize : string) : string :=
  match Env.parseInt (Some maxFileSize) with
  | Some n => JS.Number_toString (n * 1024 * 1024)
  | None => "NaN"
  end.

Definition envContent (apiKey port env maxFileSize : string) : string :=
  "# OpenAI API Configuration" +:+ newline
  +:+ "OPENAI_API_KEY=" +:+ apiKey +:+ newline
  +:+ newline
  +:+ "# Server Configuration" +:+ newline
  +:+ "PORT=" +:+ port +:+ newline
  +:+ "NODE_ENV=" +:+ env +:+ newline
  +:+ newline
  +:+ "# File Upload Configuration" +:+ newline
  +:+ "MAX_FILE_SIZE=" +:+ megabytes maxFileSize +:+ newline
  +:+ "UPLOAD_PATH=./uploads" +:+ newline.

(** [apiKey.length > 10 ? apiKey.substring(0, 10) + '...' : apiKey] *)
Definition masked (apiKey : string) : string :=
  if (10 <? String.length apiKey)%nat then String.substring 0 10 apiKey +:+ "..."
  else apiKey.

End Setup.

Notation "'do*' x ':=' m 'in' k" := (Setup.andThen m (fun x => k))
  (at level 10, x name, m at level 100, k at level 200).

Module SetupScript.
Import Setup.

(** The confirmation asked for when [.env] exists (lines 24-31). *)
Definition confirm_overwrite : Script unit :=
  do* found := fs_existsSync ".env" in
  if found then
    do* overwrite :=
      question "A .env file already exists. Do you want to overwrite it? (y/N): " in
    if negb (String.eqb (JS.toLowerCase overwrite) "y")
       && negb (String.eqb (JS.toLowerCase overwrite) "yes")
    then
      do* _ := print "Setup cancelled. Your existing .env file has been preserved." in
      finish Cancelled
    else pure tt
  else pure tt.

(** [async function setup()] (lines 21-84). *)
Definition setup : Script unit :=
  do* _ := confirm_overwrite in
  do* _ := print (newline +:+ "📝 Configuration Options:" +:+ newline) in
  do* apiKey := question "Enter your OpenAI API key: " in
  if negb (JS.truthy (Some (trim apiKey))) then
    do* _ := print "❌ OpenAI API key is required!" in
    finish KeyRequired
  else
    do* port := question "Enter server port (default: 3000): " in
    let port := Env.string_or (Some port) "3000" in
    do* env :=
      question "Enter environment (development/production, default: development): " in
    let env := Env.string_or (Some env) "development" in
    do* maxFileSize := question "Enter max audio file size in MB (default: 10): " in
    let maxFileSize := Env.string_or (Some maxFileSize) "10" in
    do* _ := fs_writeFileSync ".env" (envContent apiKey port env maxFileSize) in
    do* _ := print (newline +:+ "✅ Configuration completed successfully!") in
    do* _ := print (newline +:+ "📋 Next steps:") in
    do* _ := print "1. Run: npm start" in
    do* _ := print ("2. Open: http://localhost:" +:+ port) in
    do* _ := print "3. Start recording and evaluating audio responses!" in
    do* _ := print (newline +:+ "🔧 Configuration saved to .env file:") in
    do* _ := print ("- OpenAI API Key: " +:+ masked apiKey) in
    do* _ := print ("- Server Port: " +:+ port) in
    do* _ := print ("- Environment: " +:+ env) in
    do* _ := print ("- Max File Size: " +:+ maxFileSize +:+ "MB") in
    finish Completed.

(** The whole script: the two banner lines, then [setup()]. *)
Definition main (t : Terminal) : Ending * Terminal :=
  match (do* _ := print ("🎤 AI Audio Assessment System Setup" +:+ newline) in
         do* _ := print ("This script will help you configure your environment variables."
                         +:+ newline) in
         setup) t with
  | (inl e, t') => (e, t')
  | (inr _, t') => (Completed, t')
  end.

End SetupScript.

(** The time awaited over a list of delays. *)
Definition sum_Z (l : list Z) : Z := foldr Z.add 0 l.

(** ** Decimal numerals, as [Number_toString] prints them *)

(** The number a numeral denotes after the digits read so far. *)
Fixpoint horner (d : Decimal.uint) (acc : Z) : Z :=
  match d with
  | Decimal.Nil => acc
  | Decimal.D0 l => horner l (10 * acc + 0)
  | Decimal.D1 l => horner l (10 * acc + 1)
  | Decimal.D2 l => horner l (10 * acc + 2)
  | Decimal.D3 l => horner l (10 * acc + 3)
  | Decimal.D4 l => horner l (10 * acc + 4)
  | Decimal.D5 l => horner l (10 * acc + 5)
  | Decimal.D6 l => horner l (10 * acc + 6)
  | Decimal.D7 l => horner l (10 * acc + 7)
  | Decimal.D8 l => horner l (10 * acc + 8)
  | Decimal.D9 l => horner l (10 * acc + 9)
  end.

(** No decimal digit at the head of the text. *)
Definition no_leading_digit (s : string) : bool :=
  match s with
  | String c _ =>
      match Env.digit c with
      | Some d => negb (d <? 10)
      | None => true
      end
  | EmptyString => true
  end.

(** Decimal digits only. *)
Fixpoint all_digits (s : string) : bool :=
  match s with
  | EmptyString => true
  | String c rest =>
      ((48 <=? N_of_ascii c) && (N_of_ascii c <=? 57))%N && all_digits rest
  end.

(** ** The course of a request through the handler *)

Section CourseOfRequest.
Context {X : Type}.
Variable svc : Services X.

(** What a request that passes validation goes through. *)
Inductive Course (req : Request) (w : World X) (resp : Response) (w' : World X) : Prop :=
| course_rejected :
    (file req = None \/ JS.truthy (question req) = false) ->
    status resp = 400 -> w' = w -> Course req w resp w'
| course_transcription_failed f q e w1 :
    file req = Some f -> question req = Some q -> q <> EmptyString ->
    retryOperation (transcriptions_create svc (path f)) 3 "Transcription" w
      = Some (Rejected e, w1) ->
    resp = mkResponse 500 (ErrorDetailsBody (errorMessage (message e)) (message e)) ->
    ext w' = ext w1 -> timers w' = timers w1 ->
    Course req w resp w'
| course_evaluation_failed f q t e w1 w2 :
    file req = Some f -> question req = Some q -> q <> EmptyString ->
    retryOperation (transcriptions_create svc (path f)) 3 "Transcription" w
      = Some (Resolved t, w1) ->
    retryOperation (completions_create svc (user_content q t)) 3 "Evaluation" w1
      = Some (Rejected e, w2) ->
    resp = mkResponse 500 (ErrorDetailsBody (errorMessage (message e)) (message e)) ->
    ext w' = ext w2 -> timers w' = timers w2 ->
    Course req w resp w'
| course_succeeded f q t r w1 w2 :
    file req = Some f -> question req = Some q -> q <> EmptyString ->
    retryOperation (transcriptions_create svc (path f)) 3 "Transcription" w
      = Some (Resolved t, w1) ->
    retryOperation (completions_create svc (user_content q t)) 3 "Evaluation" w1
      = Some (Resolved r, w2) ->
    status resp = 200 ->
    ext w' = ext w2 -> timers w' = timers w2 ->
    Course req w resp w'.

End CourseOfRequest.

(** * Properties *)

(** ** Facts about [JSON.parse] *)

Module JSONFacts.
Import JSON.

Lemma skip_ws_length s : (String.length (skip_ws s) <= String.length s)%nat.
Proof. induction s as [|c s IH]; simpl; [lia|]. destruct (is_ws c); simpl; lia. Qed.

Lemma tail_length s : (String.length (tail s) <= String.length s)%nat.
Proof. destruct s; simpl; lia. Qed.

Lemma head_is_length c s :
  head_is c s = true -> String.length s = S (String.length (tail s)).
Proof. destruct s; simpl; [discriminate | reflexivity]. Qed.

Lemma strip_prefix_length lit s rest :
  strip_prefix lit s = Some rest ->
  String.length s = (String.length lit + String.length rest)%nat.
Proof.
  revert s. induction lit as [|a lit IH]; intros s H; simpl in *.
  - congruence.
  - destruct s as [|b s]; [discriminate|].
    destruct (Ascii.eqb a b); [|discriminate].
    simpl. f_equal. now apply IH.
Qed.

Lemma parse_string_chars_length n :
  forall s acc u rest,
    (String.length s <= n)%nat ->
    parse_string_chars s acc = Ok u rest ->
    (String.length rest < String.length s)%nat.
Proof.
  induction n as [|n IH]; intros s acc u rest Hn H.
  - destruct s; simpl in *; [discriminate | lia].
  - destruct s as [|c s]; [discriminate|].
    cbn [parse_string_chars] in H. cbn zeta in H.
    destruct (N_of_ascii c =? 34)%N.
    { inversion H; subst. simpl. lia. }
    destruct (N_of_ascii c <? 32)%N; [discriminate|].
    destruct (N_of_ascii c =? 92)%N.
    2:{ apply IH in H; simpl in *; lia. }
    destruct s as [|e s]; [discriminate|].
    assert (Hs : forall a, parse_string_chars s a = Ok u rest ->
                      (String.length rest < String.length (String c (String e s)))%nat).
    { intros a Ha. apply IH in Ha; simpl in *; lia. }
    destruct (N_of_ascii e) as [|p]; [discriminate|].
    repeat (destruct p as [p|p|]; try discriminate; eauto).
    destruct s as [|h1 [|h2 [|h3 [|h4 s]]]]; try discriminate.
    destruct (hex4 h1 h2 h3 h4); [|discriminate].
    apply IH in H; simpl in *; lia.
Qed.

Lemma parse_string_chars_runs s : forall acc, parse_string_chars s acc <> Exhausted.
Proof.
  remember (String.length s) as n eqn:Hn.
  assert (Hle : (String.length s <= n)%nat) by lia. clear Hn.
  revert s Hle. induction n as [|n IH]; intros s Hle acc.
  - destruct s; simpl in *; [discriminate | lia].
  - destruct s as [|c s]; [discriminate|].
    cbn [parse_string_chars]. cbn zeta.
    destruct (N_of_ascii c =? 34)%N; [discriminate|].
    destruct (N_of_ascii c <? 32)%N; [discriminate|].
    destruct (N_of_ascii c =? 92)%N.
    2:{ apply IH; simpl in *; lia. }
    destruct s as [|e s]; [discriminate|].
    assert (Hs : forall a, parse_string_chars s a <> Exhausted).
    { intros a. apply IH; simpl in *; lia. }
    destruct (N_of_ascii e) as [|p]; [discriminate|].
    repeat (destruct p as [p|p|]; try discriminate; eauto).
    destruct s as [|h1 [|h2 [|h3 [|h4 s]]]]; try discriminate.
    destruct (hex4 h1 h2 h3 h4); [|discriminate].
    apply IH; simpl in *; lia.
Qed.

Lemma digits_length s : forall acc count m k rest,
  digits s acc count = (m, k, rest) ->
  k - count = Z.of_nat (String.length s) - Z.of_nat (String.length rest)
  /\ (String.length rest <= String.length s)%nat.
Proof.
  induction s as [|c s IH]; intros acc count m k rest H; simpl in H.
  - inversion H; subst. lia.
  - destruct (digit_val c).
    + apply IH in H. simpl String.length. lia.
    + inversion H; subst. lia.
Qed.

Lemma parse_integer_length s m rest :
  parse_integer s = Ok m rest -> (String.length rest < String.length s)%nat.
Proof.
  unfold parse_integer. destruct (head_is "0" s) eqn:H0.
  - intros H; inversion H; subst. apply head_is_length in H0. lia.
  - destruct (digits s 0 0) as [[m' k] r] eqn:Hd.
    apply digits_length in Hd.
    destruct (k =? 0) eqn:Hk; [discriminate|].
    intros H; inversion H; subst.
    apply Z.eqb_neq in Hk. pose proof (tail_length rest). lia.
Qed.

Lemma parse_fraction_length m s x rest :
  parse_fraction m s = Ok x rest -> (String.length rest <= String.length s)%nat.
Proof.
  unfold parse_fraction. destruct (head_is "." s) eqn:H0.
  - destruct (digits (tail s) m 0) as [[m' k] r] eqn:Hd.
    apply digits_length in Hd.
    destruct (k =? 0); [discriminate|].
    intros H; inversion H; subst. pose proof (tail_length s). lia.
  - intros H; inversion H; subst. lia.
Qed.

Lemma parse_exponent_length s e rest :
  parse_exponent s = Ok e rest -> (String.length rest <= String.length s)%nat.
Proof.
  unfold parse_exponent. destruct (head_is "e" s || head_is "E" s).
  - destruct (digits _ 0 0) as [[m' k] r] eqn:Hd.
    apply digits_length in Hd.
    destruct (k =? 0); [discriminate|].
    intros H; inversion H; subst.
    pose proof (tail_length s). pose proof (tail_length (tail s)).
    destruct (head_is "-" (tail s) || head_is "+" (tail s)); lia.
  - intros H; inversion H; subst. lia.
Qed.

Lemma parse_number_length s v rest :
  parse_number s = Ok v rest -> (String.length rest < String.length s)%nat.
Proof.
  unfold parse_number.
  destruct (parse_integer _) as [m s2| |] eqn:Hi; try discriminate.
  destruct (parse_fraction m s2) as [[m' places] s3| |] eqn:Hf; try discriminate.
  destruct (parse_exponent s3) as [e r| |] eqn:He; try discriminate.
  intros H; inversion H; subst.
  apply parse_integer_length in Hi. apply parse_fraction_length in Hf.
  apply parse_exponent_length in He.
  pose proof (tail_length s). destruct (head_is "-" s); lia.
Qed.

Lemma parse_number_runs s : parse_number s <> Exhausted.
Proof.
  unfold parse_number, parse_integer, parse_fraction, parse_exponent.
  repeat match goal with
         | |- context [if ?b then _ else _] => destruct b
         | |- context [digits ?a ?b ?c] => destruct (digits a b c) as [[? ?] ?]
         end; discriminate.
Qed.

Lemma parse_literal_length lit v s v' rest :
  lit <> EmptyString ->
  parse_literal lit v s = Ok v' rest -> (String.length rest < String.length s)%nat.
Proof.
  unfold parse_literal. intros Hlit.
  destruct (strip_prefix lit s) eqn:Hs; [|discriminate].
  intros H; inversion H; subst. apply strip_prefix_length in Hs.
  destruct lit; [congruence | simpl in Hs; lia].
Qed.

Lemma parse_literal_runs lit v s : parse_literal lit v s <> Exhausted.
Proof. unfold parse_literal. destruct (strip_prefix lit s); discriminate. Qed.

(** A value, the elements of an array and the members of an object each
    consume at least one character. *)
Lemma parse_consuming budget :
  (forall s v rest, parse_value budget s = Ok v rest ->
                    (String.length rest < String.length s)%nat)
  /\ (forall s acc v rest, parse_elements budget s acc = Ok v rest ->
                           (String.length rest < String.length s)%nat)
  /\ (forall s acc v rest, parse_members budget s acc = Ok v rest ->
                           (String.length rest < String.length s)%nat).
Proof.
  induction budget as [|b (IHv & IHe & IHm)]; [repeat split; intros; discriminate|].
  repeat split.
  - intros s v rest. cbn [parse_value]. cbn zeta.
    pose proof (skip_ws_length s) as Hws.
    set (s' := skip_ws s) in *. clearbody s'.
    pose proof (tail_length s') as Ht.
    pose proof (skip_ws_length (tail s')) as Hws'.
    pose proof (tail_length (skip_ws (tail s'))) as Ht'.
    destruct (head_is "{" s') eqn:H1.
    { apply head_is_length in H1.
      destruct (head_is "}" _) eqn:H2.
      - intros H; inversion H; subst. lia.
      - intros H; apply IHm in H. lia. }
    destruct (head_is "[" s') eqn:H2.
    { apply head_is_length in H2.
      destruct (head_is "]" _) eqn:H3.
      - intros H; inversion H; subst. lia.
      - intros H; apply IHe in H. lia. }
    destruct (head_is quote s') eqn:H3.
    { apply head_is_length in H3.
      destruct (parse_string_chars _ _) as [u r| |] eqn:Hp; try discriminate.
      intros H; inversion H; subst.
      apply (parse_string_chars_length _ _ _ _ _ (le_n _)) in Hp. lia. }
    destruct (head_is "t" s').
    { intros H; apply parse_literal_length in H; [lia | discriminate]. }
    destruct (head_is "f" s').
    { intros H; apply parse_literal_length in H; [lia | discriminate]. }
    destruct (head_is "n" s').
    { intros H; apply parse_literal_length in H; [lia | discriminate]. }
    intros H; apply parse_number_length in H. lia.
  - intros s acc v rest. cbn [parse_elements].
    destruct (parse_value b s) as [v1 r1| |] eqn:Hv; try discriminate.
    apply IHv in Hv. cbn zeta.
    pose proof (skip_ws_length r1) as Hws.
    pose proof (tail_length (skip_ws r1)) as Ht.
    destruct (head_is "," _).
    { intros H; apply IHe in H. lia. }
    destruct (head_is "]" _); [|discriminate].
    intros H; inversion H; subst. lia.
  - intros s acc v rest. cbn [parse_members]. cbn zeta.
    pose proof (skip_ws_length s) as Hws.
    pose proof (tail_length (skip_ws s)) as Ht.
    destruct (head_is quote _); [|discriminate].
    destruct (parse_string_chars _ _) as [key r0| |] eqn:Hp; try discriminate.
    apply (parse_string_chars_length _ _ _ _ _ (le_n _)) in Hp.
    pose proof (skip_ws_length r0) as Hws0.
    pose proof (tail_length (skip_ws r0)) as Ht0.
    destruct (head_is ":" _); [|discriminate].
    destruct (parse_value b _) as [v1 r1| |] eqn:Hv; try discriminate.
    apply IHv in Hv.
    pose proof (skip_ws_length r1) as Hws1.
    pose proof (tail_length (skip_ws r1)) as Ht1.
    destruct (head_is "," _).
    { intros H; apply IHm in H. lia. }
    destruct (head_is "}" _); [|discriminate].
    intros H; inversion H; subst. lia.
Qed.

(** Twice the length of the text, and one or two more, is budget enough. *)
Lemma parse_sufficient budget :
  (forall s, (2 * String.length s + 1 <= budget)%nat ->
             parse_value budget s <> Exhausted)
  /\ (forall s acc, (2 * String.length s + 2 <= budget)%nat ->
                    parse_elements budget s acc <> Exhausted)
  /\ (forall s acc, (2 * String.length s + 2 <= budget)%nat ->
                    parse_members budget s acc <> Exhausted).
Proof.
  induction budget as [|b (IHv & IHe & IHm)]; [repeat split; intros; lia|].
  repeat split.
  - intros s Hb. cbn [parse_value]. cbn zeta.
    pose proof (skip_ws_length s) as Hws.
    set (s' := skip_ws s) in *. clearbody s'.
    pose proof (tail_length s') as Ht.
    destruct (head_is "{" s') eqn:H1.
    { apply head_is_length in H1.
      destruct (head_is "}" _); [discriminate|]. apply IHm. lia. }
    destruct (head_is "[" s') eqn:H2.
    { apply head_is_length in H2.
      destruct (head_is "]" _); [discriminate|]. apply IHe. lia. }
    destruct (head_is quote s').
    { pose proof (parse_string_chars_runs (tail s') []).
      destruct (parse_string_chars _ _); congruence. }
    destruct (head_is "t" s'); [apply parse_literal_runs|].
    destruct (head_is "f" s'); [apply parse_literal_runs|].
    destruct (head_is "n" s'); [apply parse_literal_runs|].
    apply parse_number_runs.
  - intros s acc Hb. cbn [parse_elements].
    pose proof (IHv s ltac:(lia)) as Hv.
    destruct (parse_value b s) as [v1 r1| |] eqn:Hp; try congruence.
    apply (proj1 (parse_consuming b)) in Hp. cbn zeta.
    pose proof (skip_ws_length r1) as Hws.
    destruct (head_is "," _) eqn:Hc.
    { apply head_is_length in Hc. apply IHe. lia. }
    destruct (head_is "]" _); discriminate.
  - intros s acc Hb. cbn [parse_members]. cbn zeta.
    pose proof (skip_ws_length s) as Hws.
    pose proof (tail_length (skip_ws s)) as Ht.
    destruct (head_is quote _); [|discriminate].
    pose proof (parse_string_chars_runs (tail (skip_ws s)) []) as Hr.
    destruct (parse_string_chars _ _) as [key r0| |] eqn:Hp; try congruence.
    apply (parse_string_chars_length _ _ _ _ _ (le_n _)) in Hp.
    pose proof (skip_ws_length r0) as Hws0.
    pose proof (tail_length (skip_ws r0)) as Ht0.
    destruct (head_is ":" _); [|discriminate].
    pose proof (IHv (tail (skip_ws r0)) ltac:(lia)) as Hv.
    destruct (parse_value b _) as [v1 r1| |] eqn:Hp1; try congruence.
    apply (proj1 (parse_consuming b)) in Hp1.
    pose proof (skip_ws_length r1) as Hws1.
    destruct (head_is "," _) eqn:Hc.
    { apply head_is_length in Hc. apply IHm. lia. }
    destruct (head_is "}" _); discriminate.
Qed.

(** [JSON.parse] yields [None] only for a [SyntaxError]. *)
Lemma parse_None_SyntaxError text :
  parse text = None <->
  parse_text (2 * String.length text + 1) text = SyntaxError.
Proof.
  unfold parse, parse_text.
  pose proof (proj1 (parse_sufficient _) text (le_n _)) as Hv.
  destruct (parse_value _ text) as [v r| |]; try congruence.
  - destruct (skip_ws r); split; congruence.
  - split; congruence.
Qed.
End JSONFacts.

Example parse_array :
  JSON.parse " [1, 2.50e3, -0.5, true, null] "
  = Some (JSON.JArray [JSON.JNumber 1 0; JSON.JNumber 250 1; JSON.JNumber (-5) (-1);
                       JSON.JBool true; JSON.JNull]).
Proof. reflexivity. Qed.

Example parse_object_repeated_key :
  JSON.parse ("{" +:+ Demo.quoted "a" +:+ ": 1, " +:+ Demo.quoted "b" +:+ ": [], "
              +:+ Demo.quoted "a" +:+ ": {} }")
  = Some (JSON.JObject [(JSON.units "a", JSON.JObject []); (JSON.units "b", JSON.JArray [])]).
Proof. reflexivity. Qed.

Example parse_escapes :
  JSON.parse (Demo.quoted "A\u00e9\n\u4E2d")
  = Some (JSON.JString [65; 233; 10; 20013]%N).
Proof. reflexivity. Qed.

Example parse_skewed_score : JSON.parse Demo.skewed_score = Some Demo.skewed_assessment.
Proof. reflexivity. Qed.

Example parse_rejects :
  map JSON.parse ["01"; "[1,]"; "1."; "1e"; "-"; ""; "nul"; "null x"; "{,}"; "not json"]
  = [None; None; None; None; None; None; None; None; None; None].
Proof. reflexivity. Qed.

Example toLowerCase_label : JS.toLowerCase "Transcription" = "transcription".
Proof. reflexivity. Qed.

Example includes_is_case_sensitive :
  JS.includes "Rate limit reached" "rate limit" = false
  /\ JS.includes "429: rate limit reached" "rate limit" = true.
Proof. split; reflexivity. Qed.

(** ** Facts about [retryOperation] *)

Section RetryFacts.
Context {X A : Type}.
Variable operation : X -> outcome A * X.
Variable maxRetries : Z.
Variable operationName : string.

Lemma retry_loop_stop budget retryCount w :
  maxRetries <= retryCount ->
  retry_loop operation maxRetries operationName budget retryCount w = Some (Resolved None, w).
Proof.
  intros H. destruct budget; simpl;
    (destruct (retryCount <? maxRetries) eqn:E; [apply Z.ltb_lt in E; lia | reflexivity]).
Qed.

Lemma retry_loop_success budget retryCount w v x' :
  retryCount < maxRetries ->
  operation (ext w) = (Resolved v, x') ->
  retry_loop operation maxRetries operationName (S budget) retryCount w = Some (Resolved (Some v), with_ext x' w).
Proof.
  intros Hlt Hop. simpl. apply Z.ltb_lt in Hlt. rewrite Hlt, Hop. reflexivity.
Qed.

Lemma retry_loop_last budget retryCount w e x' :
  retryCount < maxRetries -> maxRetries <= retryCount + 1 ->
  operation (ext w) = (Rejected e, x') ->
  retry_loop operation maxRetries operationName (S budget) retryCount w =
    Some (Rejected (aggregated_error maxRetries operationName e),
          console_log (attempt_failed_text operationName (retryCount + 1)) (message e)
                      (with_ext x' w)).
Proof.
  intros Hlt Hge Hop. simpl. apply Z.ltb_lt in Hlt. rewrite Hlt, Hop.
  destruct (retryCount + 1 >=? maxRetries) eqn:E; [reflexivity|].
  rewrite Z.geb_leb in E. apply Z.leb_gt in E. lia.
Qed.

Lemma retry_loop_again budget retryCount w e x' :
  retryCount + 1 < maxRetries ->
  operation (ext w) = (Rejected e, x') ->
  retry_loop operation maxRetries operationName (S budget) retryCount w =
    retry_loop operation maxRetries operationName budget (retryCount + 1)
         (setTimeout_await (1000 * (retryCount + 1))
            (console_log (attempt_failed_text operationName (retryCount + 1)) (message e)
                         (with_ext x' w))).
Proof.
  intros Hlt Hop. simpl.
  destruct (retryCount <? maxRetries) eqn:E1; [|apply Z.ltb_ge in E1; lia].
  rewrite Hop.
  destruct (retryCount + 1 >=? maxRetries) eqn:E; [|reflexivity].
  rewrite Z.geb_leb in E. apply Z.leb_le in E. lia.
Qed.

(** After a run of failures that leaves attempts to spare, the retry_loop operation maxRetries operationName is
    where it would be had it started there, the lines and the delays of
    the failed attempts recorded. *)
Lemma retry_loop_failing errors : forall budget retryCount w x',
  failing_run operation (ext w) errors x' ->
  retryCount + Z.of_nat (length errors) < maxRetries ->
  retry_loop operation maxRetries operationName (length errors + budget) retryCount w =
    retry_loop operation maxRetries operationName budget (retryCount + Z.of_nat (length errors))
         (mkWorld x' (disk w) (undeletable w)
                  (console w ++ failure_lines operationName retryCount errors)
                  (timers w ++ backoff_delays retryCount (length errors))).
Proof.
  induction errors as [|e errors IH]; intros budget retryCount w x' Hrun Hlt.
  - inversion Hrun; subst. simpl. rewrite Z.add_0_r, !app_nil_r.
    destruct w; reflexivity.
  - inversion Hrun as [|? ? x1 ? ? Hop Hrest]; subst.
    cbn [length Nat.add] in *. rewrite Nat2Z.inj_succ in *.
    rewrite (retry_loop_again _ _ _ e x1); [|lia|assumption].
    rewrite (IH budget (retryCount + 1) _ x'); [|exact Hrest|lia].
    simpl. rewrite <- !app_assoc. simpl.
    replace (retryCount + 1 + Z.of_nat (length errors))
      with (retryCount + Z.succ (Z.of_nat (length errors))) by lia.
    reflexivity.
Qed.

Lemma retry_loop_total budget : forall retryCount w,
  (Z.to_nat (maxRetries - retryCount) <= budget)%nat ->
  exists r w', retry_loop operation maxRetries operationName budget retryCount w = Some (r, w')
               /\ disk w' = disk w /\ undeletable w' = undeletable w.
Proof.
  induction budget as [|b IH]; intros retryCount w Hb.
  - rewrite retry_loop_stop by lia. eauto.
  - simpl. destruct (retryCount <? maxRetries) eqn:E; [|eauto].
    apply Z.ltb_lt in E.
    destruct (operation (ext w)) as [[v|e] x']; [eexists _, _; split; [reflexivity|]; auto|].
    destruct (retryCount + 1 >=? maxRetries); [eexists _, _; split; [reflexivity|]; auto|].
    destruct (IH (retryCount + 1) (setTimeout_await (1000 * (retryCount + 1))
               (console_log (attempt_failed_text operationName (retryCount + 1)) (message e)
                            (with_ext x' w)))) as (r & w' & H & Hd & Hu); [lia|].
    eexists _, _; split; [exact H|]. auto.
Qed.

(** [retryOperation] never runs out of budget. *)
Lemma retryOperation_total w :
  exists r w', retryOperation operation maxRetries operationName w = Some (r, w').
Proof.
  destruct (retry_loop_total (Z.to_nat maxRetries) 0 w) as (r & w' & H & _); [lia|].
  exists r, w'. exact H.
Qed.

Lemma retryOperation_after_failures errors w x' v x'' :
  failing_run operation (ext w) errors x' ->
  operation x' = (Resolved v, x'') ->
  Z.of_nat (length errors) < maxRetries ->
  retryOperation operation maxRetries operationName w =
    Some (Resolved (Some v),
          mkWorld x'' (disk w) (undeletable w)
                  (console w ++ failure_lines operationName 0 errors)
                  (timers w ++ backoff_delays 0 (length errors))).
Proof.
  intros Hrun Hop Hlt. unfold retryOperation.
  replace (Z.to_nat maxRetries)
    with (length errors + S (Z.to_nat maxRetries - length errors - 1))%nat by lia.
  rewrite (retry_loop_failing errors _ 0 w x' Hrun) by lia.
  erewrite retry_loop_success; [reflexivity | lia | exact Hop].
Qed.

Lemma retryOperation_exhausted errors w x' e x'' :
  failing_run operation (ext w) errors x' ->
  operation x' = (Rejected e, x'') ->
  Z.of_nat (length errors) + 1 = maxRetries ->
  retryOperation operation maxRetries operationName w =
    Some (Rejected (aggregated_error maxRetries operationName e),
          mkWorld x'' (disk w) (undeletable w)
                  (console w ++ failure_lines operationName 0 errors
                     ++ [LogMsg (attempt_failed_text operationName maxRetries) (message e)])
                  (timers w ++ backoff_delays 0 (length errors))).
Proof.
  intros Hrun Hop Hlt. unfold retryOperation.
  replace (Z.to_nat maxRetries) with (length errors + 1)%nat by lia.
  rewrite (retry_loop_failing errors _ 0 w x' Hrun) by lia.
  erewrite retry_loop_last; [|lia|lia|exact Hop].
  unfold console_log, with_ext. simpl.
  rewrite <- app_assoc. repeat f_equal. lia.
Qed.

End RetryFacts.

Lemma failing_run_counted {X A} (operation : X -> outcome A * X) x errors x' :
  failing_run operation x errors x' ->
  forall n, failing_run (counted operation) (x, n) errors (x', (length errors + n)%nat).
Proof.
  induction 1 as [x|x e x1 errors x' Hop _ IH]; intros n.
  - constructor.
  - econstructor.
    + unfold counted. simpl. rewrite Hop. reflexivity.
    + cbn [length]. replace (S (length errors) + n)%nat with (length errors + S n)%nat by lia.
      apply IH.
Qed.

Lemma counted_result {X A} (operation : X -> outcome A * X) x n r x' :
  operation x = (r, x') -> counted operation (x, n) = (r, (x', S n)).
Proof. intros H. unfold counted. simpl. rewrite H. reflexivity. Qed.

(** C3. With at most 3 attempts: an operation that fails twice and then
    succeeds yields the result of the third attempt after exactly the two
    delays of 1 and 2 seconds; an operation that fails three times makes
    [retryOperation] throw an error whose message holds the operation name
    (in lower case) and the message of the last failure, after exactly
    three invocations and the same two delays; and, for any bound, a
    success after fewer failures than the bound is returned at once, with
    one invocation more than there were failures. *)
Theorem retryOperation_three_attempts {X A}
    (operation : X -> outcome A * X) (name : string) (w : World X) :
  (forall e1 x1 e2 x2 v x3,
      operation (ext w) = (Rejected e1, x1) ->
      operation x1 = (Rejected e2, x2) ->
      operation x2 = (Resolved v, x3) ->
      let w' := mkWorld x3 (disk w) (undeletable w)
                  (console w ++ [LogMsg (name +:+ " attempt 1 failed:") (message e1);
                                 LogMsg (name +:+ " attempt 2 failed:") (message e2)])
                  (timers w ++ [1 * 1000; 2 * 1000]) in
      retryOperation operation 3 name w = Some (Resolved (Some v), w')
      /\ retryOperation (counted operation) 3 name (with_counter 0 w)
         = Some (Resolved (Some v), with_counter 3 w'))
  /\ (forall e1 x1 e2 x2 e3 x3,
      operation (ext w) = (Rejected e1, x1) ->
      operation x1 = (Rejected e2, x2) ->
      operation x2 = (Rejected e3, x3) ->
      let w' := mkWorld x3 (disk w) (undeletable w)
                  (console w ++ [LogMsg (name +:+ " attempt 1 failed:") (message e1);
                                 LogMsg (name +:+ " attempt 2 failed:") (message e2);
                                 LogMsg (name +:+ " attempt 3 failed:") (message e3)])
                  (timers w ++ [1 * 1000; 2 * 1000]) in
      let aggregated :=
        mkError ("Failed to complete " +:+ JS.toLowerCase name
                 +:+ " after 3 attempts: " +:+ message e3) in
      retryOperation operation 3 name w = Some (Rejected aggregated, w')
      /\ retryOperation (counted operation) 3 name (with_counter 0 w)
         = Some (Rejected aggregated, with_counter 3 w'))
  /\ (forall maxRetries errors x' v x'',
      failing_run operation (ext w) errors x' ->
      operation x' = (Resolved v, x'') ->
      Z.of_nat (length errors) < maxRetries ->
      let w' := mkWorld x'' (disk w) (undeletable w)
                  (console w ++ failure_lines name 0 errors)
                  (timers w ++ backoff_delays 0 (length errors)) in
      retryOperation operation maxRetries name w = Some (Resolved (Some v), w')
      /\ retryOperation (counted operation) maxRetries name (with_counter 0 w)
         = Some (Resolved (Some v), with_counter (S (length errors)) w')).
Proof.
  assert (General : forall maxRetries errors x' v x'',
      failing_run operation (ext w) errors x' ->
      operation x' = (Resolved v, x'') ->
      Z.of_nat (length errors) < maxRetries ->
      let w' := mkWorld x'' (disk w) (undeletable w)
                  (console w ++ failure_lines name 0 errors)
                  (timers w ++ backoff_delays 0 (length errors)) in
      retryOperation operation maxRetries name w = Some (Resolved (Some v), w')
      /\ retryOperation (counted operation) maxRetries name (with_counter 0 w)
         = Some (Resolved (Some v), with_counter (S (length errors)) w')).
  { intros maxRetries errors x' v x'' Hrun Hop Hlt w'. split.
    - apply (retryOperation_after_failures operation maxRetries name errors w x' v x''); assumption.
    - rewrite (retryOperation_after_failures (counted operation) maxRetries name errors
                 (with_counter 0 w) (x', (length errors + 0)%nat) v (x'', S (length errors + 0))).
      + rewrite Nat.add_0_r. reflexivity.
      + apply failing_run_counted. exact Hrun.
      + apply counted_result. exact Hop.
      + exact Hlt. }
  split; [|split; [|exact General]].
  - intros e1 x1 e2 x2 v x3 H1 H2 H3.
    apply (General 3 [e1; e2] x2 v x3); [|exact H3|simpl; lia].
    econstructor; [exact H1|]. econstructor; [exact H2|]. constructor.
  - intros e1 x1 e2 x2 e3 x3 H1 H2 H3 w' aggregated.
    assert (Hrun : failing_run operation (ext w) [e1; e2] x2).
    { econstructor; [exact H1|]. econstructor; [exact H2|]. constructor. }
    split.
    + rewrite (retryOperation_exhausted operation 3 name [e1; e2] w x2 e3 x3 Hrun H3)
        by reflexivity.
      reflexivity.
    + rewrite (retryOperation_exhausted (counted operation) 3 name [e1; e2]
                 (with_counter 0 w) (x2, 2%nat) e3 (x3, 3%nat)).
      * reflexivity.
      * apply (failing_run_counted operation _ _ _ Hrun 0%nat).
      * apply counted_result. exact H3.
      * reflexivity.
Qed.

(** C10. With a bound of zero or less, [retryOperation] resolves to
    [undefined] and leaves the world as it found it: the operation is not
    invoked (a counting mock stays at its count), nothing is logged or
    awaited, nothing is thrown. *)
Theorem retryOperation_nonpositive_bound {X A}
    (operation : X -> outcome A * X) (maxRetries : Z) (name : string) (w : World X) :
  maxRetries <= 0 ->
  retryOperation operation maxRetries name w = Some (Resolved None, w)
  /\ forall n, retryOperation (counted operation) maxRetries name (with_counter n w)
               = Some (Resolved None, with_counter n w).
Proof.
  intros H. split; [|intros n]; apply retry_loop_stop; exact H.
Qed.

Lemma retryOperation_three_attempts_witness :
  (retryOperation Demo.flaky 3 "Transcription" Demo.idle
   = Some (Resolved (Some "done"),
           mkWorld 3%nat ∅ ∅
             [LogMsg "Transcription attempt 1 failed:" "socket hang up";
              LogMsg "Transcription attempt 2 failed:" "socket hang up"]
             [1000; 2000])
   /\ retryOperation (counted Demo.flaky) 3 "Transcription" (with_counter 0 Demo.idle)
      = Some (Resolved (Some "done"),
              mkWorld (3%nat, 3%nat) ∅ ∅
                [LogMsg "Transcription attempt 1 failed:" "socket hang up";
                 LogMsg "Transcription attempt 2 failed:" "socket hang up"]
                [1000; 2000]))
  /\ (retryOperation Demo.broken 3 "Evaluation" Demo.idle
      = Some (Rejected
                (mkError "Failed to complete evaluation after 3 attempts: rate limit reached"),
              mkWorld 3%nat ∅ ∅
                [LogMsg "Evaluation attempt 1 failed:" "rate limit reached";
                 LogMsg "Evaluation attempt 2 failed:" "rate limit reached";
                 LogMsg "Evaluation attempt 3 failed:" "rate limit reached"]
                [1000; 2000])
      /\ retryOperation (counted Demo.broken) 3 "Evaluation" (with_counter 0 Demo.idle)
         = Some (Rejected
                   (mkError "Failed to complete evaluation after 3 attempts: rate limit reached"),
                 mkWorld (3%nat, 3%nat) ∅ ∅
                   [LogMsg "Evaluation attempt 1 failed:" "rate limit reached";
                    LogMsg "Evaluation attempt 2 failed:" "rate limit reached";
                    LogMsg "Evaluation attempt 3 failed:" "rate limit reached"]
                   [1000; 2000]))
  /\ (retryOperation Demo.flaky 5 "Transcription" (with_ext 1%nat Demo.idle)
      = Some (Resolved (Some "done"),
              mkWorld 3%nat ∅ ∅
                [LogMsg "Transcription attempt 1 failed:" "socket hang up"] [1000])
      /\ retryOperation (counted Demo.flaky) 5 "Transcription"
           (with_counter 0 (with_ext 1%nat Demo.idle))
         = Some (Resolved (Some "done"),
                 mkWorld (3%nat, 2%nat) ∅ ∅
                   [LogMsg "Transcription attempt 1 failed:" "socket hang up"] [1000])).
Proof.
  split; [|split].
  - apply (proj1 (retryOperation_three_attempts Demo.flaky "Transcription" Demo.idle)
             (mkError "socket hang up") 1%nat (mkError "socket hang up") 2%nat
             "done" 3%nat); reflexivity.
  - apply (proj1 (proj2 (retryOperation_three_attempts Demo.broken "Evaluation" Demo.idle))
             (mkError "rate limit reached") 1%nat (mkError "rate limit reached") 2%nat
             (mkError "rate limit reached") 3%nat); reflexivity.
  - apply (proj2 (proj2 (retryOperation_three_attempts Demo.flaky "Transcription"
                           (with_ext 1%nat Demo.idle)))
             5 [mkError "socket hang up"] 2%nat "done" 3%nat).
    + apply (failing_cons Demo.flaky 1%nat (mkError "socket hang up") 2%nat [] 2%nat);
        [reflexivity | apply failing_nil].
    + reflexivity.
    + simpl. lia.
Defined.

Lemma retryOperation_nonpositive_bound_witness :
  -1 <= 0
  /\ retryOperation Demo.flaky (-1) "Transcription" Demo.idle
     = Some (Resolved None, Demo.idle)
  /\ forall n, retryOperation (counted Demo.flaky) (-1) "Transcription"
                 (with_counter n Demo.idle)
               = Some (Resolved None, with_counter n Demo.idle).
Proof.
  split; [lia|].
  apply (retryOperation_nonpositive_bound Demo.flaky (-1) "Transcription" Demo.idle). lia.
Defined.

(** ** Facts about the file system calls and the handler *)

Lemma cleanupFile_spec {X} (p : string) (w : World X) :
  JS.truthy (Some p) = true ->
  exists w', cleanupFile (Some p) w = Some (Resolved tt, w')
             /\ ext w' = ext w /\ undeletable w' = undeletable w
             /\ (p ∉ undeletable w -> disk w' = disk w ∖ {[p]})
             /\ (p ∈ undeletable w -> disk w' = disk w)
             /\ (p ∈ undeletable w -> p ∈ disk w ->
                 console w' = console w ++ [LogErr "Error cleaning up file:" (unlink_refused p)]).
Proof.
  intros Hp. unfold cleanupFile. rewrite Hp. cbn [andb].
  unfold fs_existsSync. destruct (bool_decide (p ∈ disk w)) eqn:Hd.
  - unfold try_catch, fs_unlinkSync. rewrite Hd.
    destruct (bool_decide (p ∈ undeletable w)) eqn:Hu.
    + apply bool_decide_eq_true in Hu. eexists. split; [reflexivity|].
      simpl. tauto.
    + apply bool_decide_eq_false in Hu. eexists. split; [reflexivity|].
      simpl. tauto.
  - apply bool_decide_eq_false in Hd. eexists. split; [reflexivity|].
    repeat split; try tauto. intros _.
    apply leibniz_equiv. intros x. rewrite elem_of_difference, elem_of_singleton.
    split; [intros Hx; split; [exact Hx | congruence] | tauto].
Qed.

Lemma cleanupFile_runs {X} (filePath : option string) (w : World X) :
  exists w', cleanupFile filePath w = Some (Resolved tt, w').
Proof.
  unfold cleanupFile. destruct filePath as [p|]; [|eexists; reflexivity].
  destruct (JS.truthy (Some p) && fs_existsSync p w); [|eexists; reflexivity].
  unfold try_catch, fs_unlinkSync.
  destruct (bool_decide (p ∈ disk w)); [destruct (bool_decide (p ∈ undeletable w))|];
    eexists; reflexivity.
Qed.

Lemma storage_path_truthy cfg name : JS.truthy (Some (storage_path cfg name)) = true.
Proof. unfold storage_path. destruct (uploadsDir cfg); reflexivity. Qed.

Lemma parse_evaluation_spec {X} (r : option ChatCompletion) (w : World X) :
  exists w', parse_evaluation r w =
               Some (Resolved (match generated_text r with
                               | Some text =>
                                   match JSON.parse text with
                                   | Some v => v
                                   | None => fallback_evaluation
                                   end
                               | None => fallback_evaluation
                               end), w')
             /\ ext w' = ext w /\ disk w' = disk w /\ undeletable w' = undeletable w
             /\ exists extra, console w' = console w ++ extra.
Proof.
  unfold parse_evaluation, try_catch, parse_content, generated_text.
  assert (Hsame : exists extra, console w = console w ++ extra)
    by (exists []; rewrite app_nil_r; reflexivity).
  destruct r as [[[|c cs]]|]; simpl; try (eexists; split; [reflexivity|]; simpl; eauto 6).
  destruct (JSON.parse _); simpl; eexists; (split; [reflexivity|]; simpl; eauto 6).
Qed.

Section HandlerFacts.
Context {X : Type}.
Variable svc : Services X.

Lemma retryOperation_runs {A} (operation : X -> outcome A * X) name (w : World X) :
  exists r w', retryOperation operation 3 name w = Some (r, w')
               /\ disk w' = disk w /\ undeletable w' = undeletable w.
Proof. apply retry_loop_total. lia. Qed.

Lemma assessment_catch_runs req e (w : World X) :
  exists w', assessment_catch req e w =
               Some (Resolved (mkResponse 500
                       (ErrorDetailsBody (errorMessage (message e)) (message e))), w').
Proof.
  unfold assessment_catch, bind, effect.
  destruct (cleanupFile_runs (option_map path (file req))
              (console_error "Error assessing audio:" e w)) as (w' & Hc).
  rewrite Hc. eexists. reflexivity.
Qed.

Lemma assessment_catch_spec req f e (w : World X) :
  file req = Some f -> JS.truthy (Some (path f)) = true ->
  exists w', assessment_catch req e w =
               Some (Resolved (mkResponse 500
                       (ErrorDetailsBody (errorMessage (message e)) (message e))), w')
             /\ undeletable w' = undeletable w
             /\ (path f ∉ undeletable w -> disk w' = disk w ∖ {[path f]})
             /\ (path f ∈ undeletable w -> disk w' = disk w)
             /\ (path f ∈ undeletable w -> path f ∈ disk w ->
                 LogErr "Error cleaning up file:" (unlink_refused (path f)) ∈ console w').
Proof.
  intros Hf Hp. unfold assessment_catch, bind, effect. rewrite Hf. cbn [option_map].
  destruct (cleanupFile_spec (path f) (console_error "Error assessing audio:" e w) Hp)
    as (w' & Hc & _ & Hu & Hgone & Hkept & Hlog).
  rewrite Hc. eexists. split; [reflexivity|]. repeat split; auto.
  intros H1 H2. simpl in Hlog. rewrite (Hlog H1 H2).
  apply elem_of_app. right. apply list_elem_of_singleton. reflexivity.
Qed.

(** The handler on a request that passes validation, step by step. *)
Lemma assessment_handler_valid req f q (w : World X) :
  file req = Some f -> question req = Some q -> q <> EmptyString ->
  assessment_handler svc req w =
    match retryOperation (transcriptions_create svc (path f)) 3 "Transcription" w with
    | None => None
    | Some (Rejected e, w1) => assessment_catch req e w1
    | Some (Resolved t, w1) =>
        match retryOperation (completions_create svc (user_content q t)) 3 "Evaluation" w1 with
        | None => None
        | Some (Rejected e, w2) => assessment_catch req e w2
        | Some (Resolved r, w2) =>
            match cleanupFile (Some (path f)) w2 with
            | Some (Resolved _, w3) =>
                match parse_evaluation r w3 with
                | Some (Resolved a, w4) =>
                    Some (Resolved (mkResponse 200
                            (AssessmentBody true q t a
                               (mkMetadata (filename f) (originalname f) (size f)
                                  "gpt-4o-mini" "whisper-1"
                                  (toISOString_now svc (ext w4))))), w4)
                | Some (Rejected e, w4) => assessment_catch req e w4
                | None => None
                end
            | Some (Rejected e, w3) => assessment_catch req e w3
            | None => None
            end
        end
    end.
Proof.
  intros Hf Hq Hne. unfold assessment_handler, try_catch, assessment_try.
  rewrite Hf, Hq. destruct q as [|c q]; [congruence|]. cbn [JS.truthy negb template_string].
  unfold bind.
  destruct (retryOperation _ 3 "Transcription" w) as [[[t|e] w1]|]; try reflexivity.
  destruct (retryOperation _ 3 "Evaluation" w1) as [[[r|e] w2]|]; try reflexivity.
  destruct (cleanupFile _ w2) as [[[[]|e] w3]|]; try reflexivity.
  destruct (parse_evaluation r w3) as [[[a|e] w4]|]; reflexivity.
Qed.

(** The success path: both retried calls resolved. *)
Lemma assessment_handler_success req f q t r (w w1 w2 : World X) :
  file req = Some f -> question req = Some q -> q <> EmptyString ->
  retryOperation (transcriptions_create svc (path f)) 3 "Transcription" w
    = Some (Resolved t, w1) ->
  retryOperation (completions_create svc (user_content q t)) 3 "Evaluation" w1
    = Some (Resolved r, w2) ->
  exists w3 w',
    cleanupFile (Some (path f)) w2 = Some (Resolved tt, w3)
    /\ ext w' = ext w2 /\ disk w' = disk w3 /\ undeletable w' = undeletable w3
    /\ (exists extra, console w' = console w3 ++ extra)
    /\ assessment_handler svc req w =
         Some (Resolved (mkResponse 200
                 (AssessmentBody true q t
                    (match generated_text r with
                     | Some text =>
                         match JSON.parse text with
                         | Some v => v
                         | None => fallback_evaluation
                         end
                     | None => fallback_evaluation
                     end)
                    (mkMetadata (filename f) (originalname f) (size f)
                       "gpt-4o-mini" "whisper-1" (toISOString_now svc (ext w'))))), w').
Proof.
  intros Hf Hq Hne H1 H2.
  rewrite (assessment_handler_valid req f q w Hf Hq Hne), H1, H2.
  destruct (cleanupFile_runs (Some (path f)) w2) as (w3 & Hc).
  destruct (parse_evaluation_spec r w3) as (w4 & Hp & He & Hd & Hu & Hl).
  rewrite Hc, Hp. exists w3, w4. repeat split; auto.
  assert (Hext : ext w3 = ext w2).
  { revert Hc. unfold cleanupFile.
    destruct (JS.truthy (Some (path f)) && fs_existsSync (path f) w2);
      [|intros H; inversion H; reflexivity].
    unfold try_catch, fs_unlinkSync.
    destruct (bool_decide (path f ∈ disk w2));
      [destruct (bool_decide (path f ∈ undeletable w2))|];
      intros H; inversion H; reflexivity. }
  congruence.
Qed.

(** The handler answers every request. *)
Lemma assessment_handler_responds req (w : World X) :
  exists resp w', assessment_handler svc req w = Some (Resolved resp, w').
Proof.
  destruct (file req) as [f|] eqn:Hf.
  2:{ unfold assessment_handler, try_catch, assessment_try. rewrite Hf.
      eexists _, _. reflexivity. }
  destruct (JS.truthy (question req)) eqn:Ht.
  2:{ unfold assessment_handler, try_catch, assessment_try. rewrite Hf, Ht.
      eexists _, _. reflexivity. }
  destruct (question req) as [[|c q]|] eqn:Hq; try discriminate.
  assert (Hne : String c q <> EmptyString) by discriminate.
  rewrite (assessment_handler_valid req f _ w Hf Hq Hne).
  destruct (retryOperation_runs (transcriptions_create svc (path f)) "Transcription" w)
    as ([t|e] & w1 & H1 & _); rewrite H1.
  2:{ destruct (assessment_catch_runs req e w1) as (w' & Hc). eexists _, _. exact Hc. }
  destruct (retryOperation_runs (completions_create svc (user_content (String c q) t))
              "Evaluation" w1) as ([r|e] & w2 & H2 & _); rewrite H2.
  2:{ destruct (assessment_catch_runs req e w2) as (w' & Hc). eexists _, _. exact Hc. }
  destruct (cleanupFile_runs (Some (path f)) w2) as (w3 & Hc).
  destruct (parse_evaluation_spec r w3) as (w4 & Hp & _).
  rewrite Hc, Hp. eexists _, _. reflexivity.
Qed.

End HandlerFacts.

Section UploadFacts.
Context {X : Type}.
Variable cfg : Config.

Lemma upload_single_accepted now rnd u q (w : World X) :
  fileFilter u = true -> upload_size u <= maxFileSize cfg ->
  let name := storage_filename cfg now rnd u in
  upload_single cfg now rnd (mkMultipart (Some u) q) w =
    Some (Resolved (mkRequest (Some (mkFile (storage_path cfg name) name
                                       (upload_originalname u) (upload_size u))) q),
          with_disk ({[storage_path cfg name]} ∪ disk w) w).
Proof.
  intros Hf Hs name. unfold upload_single. cbn [audio question_field]. rewrite Hf.
  destruct (upload_size u >? maxFileSize cfg) eqn:E; [|reflexivity].
  rewrite Z.gtb_ltb in E. apply Z.ltb_lt in E. lia.
Qed.
End UploadFacts.

(** ** The request pipeline *)

(** C7. A multipart request without an audio part: the upload layer
    stores nothing and leaves [req.file] undefined; the handler answers 400
    with the error "No audio file provided" whatever the question; and the
    world after the request is the world before it: no file was created,
    no collaborator was called, nothing was awaited. *)
Theorem missing_audio_rejected {X} (cfg : Config) (svc : Services X)
    (now rnd : Z) (q : option string) (w : World X) :
  let rejection :=
    mkResponse 400 (ErrorMessageBody "No audio file provided"
                      "Please provide an audio file in the request") in
  upload_single cfg now rnd (mkMultipart None q) w = Some (Resolved (mkRequest None q), w)
  /\ assessment_handler svc (mkRequest None q) w = Some (Resolved rejection, w)
  /\ post_assessment cfg svc now rnd (mkMultipart None q) w = Some (Resolved rejection, w).
Proof.
  intros rejection. split; [|split].
  - unfold upload_single. reflexivity.
  - unfold assessment_handler, try_catch, assessment_try. reflexivity.
  - unfold post_assessment, upload_single. cbn [audio question_field ret].
    unfold assessment_handler, try_catch, assessment_try. reflexivity.
Qed.

(** A request with an accepted audio part and no question is answered 400
    and the stored upload stays on disk: the handler returns before any
    call of [cleanupFile]. *)
Lemma missing_question_keeps_upload {X} (cfg : Config) (svc : Services X)
    (now rnd : Z) (u : Upload) (q : option string) (w : World X) :
  fileFilter u = true -> upload_size u <= maxFileSize cfg -> JS.truthy q = false ->
  let p := storage_path cfg (storage_filename cfg now rnd u) in
  post_assessment cfg svc now rnd (mkMultipart (Some u) q) w =
    Some (Resolved (mkResponse 400
            (ErrorMessageBody "No question provided"
               "Please provide a question in the request body")),
          with_disk ({[p]} ∪ disk w) w).
Proof.
  intros Hf Hs Hq p. unfold post_assessment.
  rewrite (upload_single_accepted cfg now rnd u q w Hf Hs).
  unfold assessment_handler, try_catch, assessment_try. cbn [file question].
  rewrite Hq. reflexivity.
Qed.

(** C1 (the code departs from the specification). An audio part with no question:
    the answer is 400 "No question provided", and the file the upload
    layer stored is still on disk when the request ends. *)
Theorem missing_question_leaves_upload :
  post_assessment Demo.cfg (Demo.services Demo.heard (Demo.answers Demo.sound_score))
                  1700000000000 42 (mkMultipart (Some Demo.upload) None) Demo.world
  = Some (Resolved (mkResponse 400
            (ErrorMessageBody "No question provided"
               "Please provide a question in the request body")),
          mkWorld (0, 0)%nat {[Demo.stored]} ∅ [] [])
  /\ Demo.stored ∈ disk (mkWorld (0, 0)%nat {[Demo.stored]} ∅ [] []).
Proof.
  split.
  - rewrite (missing_question_keeps_upload Demo.cfg _ _ _ Demo.upload None Demo.world)
      by (reflexivity || (vm_compute; discriminate)).
    vm_compute. reflexivity.
  - apply elem_of_singleton. reflexivity.
Qed.

(** C5, as the specification states it, fails where the system refuses the unlink: the request
    succeeds with 200 and the stored upload is still on disk. *)
Lemma locked_upload_survives_cleanup :
  exists resp w',
    post_assessment Demo.cfg (Demo.services Demo.heard (Demo.answers Demo.sound_score))
                    1700000000000 42 Demo.request Demo.locked_world
    = Some (Resolved resp, w')
    /\ status resp = 200
    /\ Demo.stored ∈ disk w'.
Proof.
  eexists _, _. split; [vm_compute; reflexivity|].
  split; [reflexivity|]. apply (bool_decide_unpack _). vm_compute. exact I.
Qed.

(** C5, amended. A request with an accepted audio part and a question ends
    with 200 or 500, and [cleanupFile] has run on the stored upload before
    either: the file is gone unless the system refuses the unlink, in
    which case it stays, the refusal is logged and the response is sent
    all the same.  No other file is touched. *)
Theorem upload_removed_unless_unlink_refused {X} (cfg : Config) (svc : Services X)
    (now rnd : Z) (u : Upload) (q : string) (w : World X) :
  fileFilter u = true -> upload_size u <= maxFileSize cfg -> q <> EmptyString ->
  let p := storage_path cfg (storage_filename cfg now rnd u) in
  exists resp w',
    post_assessment cfg svc now rnd (mkMultipart (Some u) (Some q)) w
      = Some (Resolved resp, w')
    /\ (status resp = 200 \/ status resp = 500)
    /\ (p ∉ undeletable w -> (p ∉ disk w') /\ disk w' = disk w ∖ {[p]})
    /\ (p ∈ undeletable w ->
        disk w' = {[p]} ∪ disk w
        /\ LogErr "Error cleaning up file:" (unlink_refused p) ∈ console w').
Proof.
  intros Hf Hs Hq p. unfold post_assessment.
  rewrite (upload_single_accepted cfg now rnd u (Some q) w Hf Hs).
  fold p. set (f := mkFile p _ _ _). set (req := mkRequest (Some f) (Some q)).
  set (w0 := with_disk ({[p]} ∪ disk w) w).
  assert (Hp : JS.truthy (Some (path f)) = true) by apply storage_path_truthy.
  assert (Hgone : forall d : gset string, d = ({[p]} ∪ disk w) ∖ {[p]} ->
                    (p ∉ d) /\ d = disk w ∖ {[p]}).
  { intros d ->. split.
    - rewrite elem_of_difference, elem_of_singleton. tauto.
    - apply leibniz_equiv. intros x.
      rewrite !elem_of_difference, elem_of_union, elem_of_singleton. tauto. }
  assert (Hin : p ∈ disk w0).
  { subst w0. simpl. apply elem_of_union. left. apply elem_of_singleton. reflexivity. }
  rewrite (assessment_handler_valid svc req f q w0 eq_refl eq_refl Hq).
  destruct (retryOperation_runs (transcriptions_create svc (path f)) "Transcription" w0)
    as ([t|e] & w1 & H1 & Hd1 & Hu1); rewrite H1.
  2:{ destruct (assessment_catch_spec req f e w1 eq_refl Hp)
        as (w' & Hc & Hu & Hrm & Hkeep & Hlog).
      eexists; exists w'. split; [exact Hc|]. split; [right; reflexivity|].
      rewrite Hu1 in *. rewrite Hd1 in *. simpl in *. split.
      - intros Hn. apply Hgone, Hrm, Hn.
      - intros Hy. split; [apply Hkeep, Hy | apply Hlog; assumption]. }
  destruct (retryOperation_runs (completions_create svc (user_content q t)) "Evaluation" w1)
    as ([r|e] & w2 & H2 & Hd2 & Hu2); rewrite H2.
  2:{ destruct (assessment_catch_spec req f e w2 eq_refl Hp)
        as (w' & Hc & Hu & Hrm & Hkeep & Hlog).
      eexists; exists w'. split; [exact Hc|]. split; [right; reflexivity|].
      rewrite Hu2, Hu1 in *. rewrite Hd2, Hd1 in *. simpl in *. split.
      - intros Hn. apply Hgone, Hrm, Hn.
      - intros Hy. split; [apply Hkeep, Hy | apply Hlog; assumption]. }
  destruct (cleanupFile_spec (path f) w2 Hp) as (w3 & Hc & _ & Hu3 & Hrm & Hkeep & Hlog).
  destruct (parse_evaluation_spec r w3) as (w4 & Hpe & _ & Hd4 & Hu4 & extra & Hl4).
  rewrite Hc, Hpe. eexists; exists w4. split; [reflexivity|]. split; [left; reflexivity|].
  rewrite Hu2, Hu1 in *. rewrite Hd2, Hd1 in *. rewrite Hd4. simpl in *. split.
  - intros Hn. apply Hgone, Hrm, Hn.
  - intros Hy. split; [apply Hkeep, Hy|].
    rewrite Hl4, (Hlog Hy Hin). apply elem_of_app. left.
    apply elem_of_app. right. apply list_elem_of_singleton. reflexivity.
Qed.

Lemma upload_removed_unless_unlink_refused_witness :
  exists resp w',
    post_assessment Demo.cfg (Demo.services Demo.heard (Demo.answers Demo.sound_score))
                    1700000000000 42 Demo.request Demo.world
      = Some (Resolved resp, w')
    /\ (status resp = 200 \/ status resp = 500)
    /\ (Demo.stored ∉ undeletable Demo.world ->
        (Demo.stored ∉ disk w') /\ disk w' = disk Demo.world ∖ {[Demo.stored]})
    /\ (Demo.stored ∈ undeletable Demo.world ->
        disk w' = {[Demo.stored]} ∪ disk Demo.world
        /\ LogErr "Error cleaning up file:" (unlink_refused Demo.stored) ∈ console w').
Proof.
  apply (upload_removed_unless_unlink_refused Demo.cfg
           (Demo.services Demo.heard (Demo.answers Demo.sound_score))
           1700000000000 42 Demo.upload "What is photosynthesis?" Demo.world).
  - reflexivity.
  - vm_compute. discriminate.
  - discriminate.
Defined.

(** C4. Once the transcription and the generation calls have resolved, a
    generated text that [JSON.parse] rejects does not fail the request:
    the response is 200 with [success: true] and the fallback assessment,
    whose score is content 3, clarity 2, completeness 1, total 6. *)
Theorem unparseable_generation_yields_fallback {X} (svc : Services X)
    (req : Request) (f : File) (q : string) (t : option string)
    (r : option ChatCompletion) (text : string) (w w1 w2 : World X) :
  file req = Some f -> question req = Some q -> q <> EmptyString ->
  retryOperation (transcriptions_create svc (path f)) 3 "Transcription" w
    = Some (Resolved t, w1) ->
  retryOperation (completions_create svc (user_content q t)) 3 "Evaluation" w1
    = Some (Resolved r, w2) ->
  generated_text r = Some text ->
  JSON.parse text = None ->
  (exists w',
      assessment_handler svc req w =
        Some (Resolved (mkResponse 200
                (AssessmentBody true q t fallback_evaluation
                   (mkMetadata (filename f) (originalname f) (size f)
                      "gpt-4o-mini" "whisper-1" (toISOString_now svc (ext w'))))), w'))
  /\ JSON.get "score" fallback_evaluation =
       Some (JSON.JObject
               [ (JSON.units "content", JSON.JNumber 3 0);
                 (JSON.units "clarity", JSON.JNumber 2 0);
                 (JSON.units "completeness", JSON.JNumber 1 0);
                 (JSON.units "total", JSON.JNumber 6 0) ]).
Proof.
  intros Hf Hq Hne H1 H2 Hg Hparse. split; [|reflexivity].
  destruct (assessment_handler_success svc req f q t r w w1 w2 Hf Hq Hne H1 H2)
    as (w3 & w' & _ & _ & _ & _ & _ & H).
  rewrite Hg, Hparse in H. exists w'. exact H.
Qed.

Lemma unparseable_generation_yields_fallback_witness :
  (exists w',
      assessment_handler
        (Demo.services Demo.heard (Demo.answers "Sorry, I cannot grade this."))
        (mkRequest (Some (mkFile Demo.stored "audio-1700000000000-42.mp3" "answer.mp3" 2048))
                   (Some "What is photosynthesis?"))
        (mkWorld (0, 0)%nat {[Demo.stored]} ∅ [] []) =
        Some (Resolved (mkResponse 200
                (AssessmentBody true "What is photosynthesis?"
                   (Some "Plants turn light into sugar.") fallback_evaluation
                   (mkMetadata "audio-1700000000000-42.mp3" "answer.mp3" 2048
                      "gpt-4o-mini" "whisper-1"
                      (toISOString_now
                         (Demo.services Demo.heard
                            (Demo.answers "Sorry, I cannot grade this.")) (ext w'))))),
              w'))
  /\ JSON.get "score" fallback_evaluation =
       Some (JSON.JObject
               [ (JSON.units "content", JSON.JNumber 3 0);
                 (JSON.units "clarity", JSON.JNumber 2 0);
                 (JSON.units "completeness", JSON.JNumber 1 0);
                 (JSON.units "total", JSON.JNumber 6 0) ]).
Proof.
  apply (unparseable_generation_yields_fallback
           (Demo.services Demo.heard (Demo.answers "Sorry, I cannot grade this."))
           (mkRequest (Some (mkFile Demo.stored "audio-1700000000000-42.mp3" "answer.mp3" 2048))
                      (Some "What is photosynthesis?"))
           (mkFile Demo.stored "audio-1700000000000-42.mp3" "answer.mp3" 2048)
           "What is photosynthesis?"
           (Some "Plants turn light into sugar.")
           (Some (mkChatCompletion
                    [mkChoice (mkChatMessage (Some "Sorry, I cannot grade this."))]))
           "Sorry, I cannot grade this."
           (mkWorld (0, 0)%nat {[Demo.stored]} ∅ [] [])
           (mkWorld (1, 0)%nat {[Demo.stored]} ∅ [] [])
           (mkWorld (1, 1)%nat {[Demo.stored]} ∅ [] [])).
  - reflexivity.
  - reflexivity.
  - discriminate.
  - vm_compute. reflexivity.
  - vm_compute. reflexivity.
  - reflexivity.
  - vm_compute. reflexivity.
Defined.

(** C2, as the specification states it, fails: a generated JSON text whose total is not the sum
    of its parts is returned as the assessment of a 200 response; the
    fallback is not substituted. *)
Lemma skewed_score_is_returned :
  post_assessment Demo.cfg (Demo.services Demo.heard (Demo.answers Demo.skewed_score))
                  1700000000000 42 Demo.request Demo.world
  = Some (Resolved (mkResponse 200
            (AssessmentBody true "What is photosynthesis?"
               (Some "Plants turn light into sugar.")
               Demo.skewed_assessment Demo.metadata)),
          mkWorld (1, 1)%nat ∅ ∅ [] [])
  /\ Assessment.score_invariant Demo.skewed_assessment = false
  /\ Demo.skewed_assessment <> fallback_evaluation.
Proof.
  split; [vm_compute; reflexivity|]. split; [reflexivity | discriminate].
Qed.

(** C2, amended. The assessment of a 200 response is what [JSON.parse]
    yields for the generated text, as it is and whatever its shape, or the
    fallback assessment when there is no text to parse or the text is not
    JSON; the fallback has a total equal to the sum of its three parts,
    each within [0,5]. *)
Theorem returned_assessment_is_parsed_or_fallback {X} (svc : Services X)
    (req : Request) (resp : Response) (w w' : World X) :
  assessment_handler svc req w = Some (Resolved resp, w') ->
  status resp = 200 ->
  (exists f q t r w1 w2 meta,
      file req = Some f /\ question req = Some q
      /\ retryOperation (transcriptions_create svc (path f)) 3 "Transcription" w
         = Some (Resolved t, w1)
      /\ retryOperation (completions_create svc (user_content q t)) 3 "Evaluation" w1
         = Some (Resolved r, w2)
      /\ body resp =
           AssessmentBody true q t
             (match generated_text r with
              | Some text =>
                  match JSON.parse text with
                  | Some v => v
                  | None => fallback_evaluation
                  end
              | None => fallback_evaluation
              end) meta)
  /\ Assessment.score_invariant fallback_evaluation = true.
Proof.
  intros H Hs. split; [|reflexivity].
  destruct (file req) as [f|] eqn:Hf.
  2:{ unfold assessment_handler, try_catch, assessment_try in H. rewrite Hf in H.
      inversion H; subst. discriminate. }
  destruct (JS.truthy (question req)) eqn:Ht.
  2:{ unfold assessment_handler, try_catch, assessment_try in H. rewrite Hf, Ht in H.
      inversion H; subst. discriminate. }
  destruct (question req) as [[|c q]|] eqn:Hq; try discriminate.
  assert (Hne : String c q <> EmptyString) by discriminate.
  rewrite (assessment_handler_valid svc req f _ w Hf Hq Hne) in H.
  assert (Hcatch : forall e w0, assessment_catch req e w0 <> Some (Resolved resp, w')).
  { intros e w0 Hc. destruct (assessment_catch_runs req e w0) as (w'' & Hr).
    rewrite Hr in Hc. inversion Hc; subst. discriminate. }
  destruct (retryOperation _ 3 "Transcription" w) as [[[t|e] w1]|] eqn:H1;
    [|exfalso; eapply Hcatch; exact H|discriminate].
  destruct (retryOperation _ 3 "Evaluation" w1) as [[[r|e] w2]|] eqn:H2;
    [|exfalso; eapply Hcatch; exact H|discriminate].
  destruct (assessment_handler_success svc req f _ t r w w1 w2 Hf Hq Hne H1 H2)
    as (w3 & w4 & Hc & _ & _ & _ & _ & Hh).
  rewrite (assessment_handler_valid svc req f _ w Hf Hq Hne), H1, H2 in Hh.
  rewrite Hh in H. inversion H; subst.
  exists f, (String c q), t, r, w1, w2. eexists. repeat split; try reflexivity; assumption.
Qed.

Lemma returned_assessment_is_parsed_or_fallback_witness :
  (exists f q t r w1 w2 meta,
      Some (mkFile Demo.stored "audio-1700000000000-42.mp3" "answer.mp3" 2048) = Some f
      /\ Some "What is photosynthesis?" = Some q
      /\ retryOperation
           (transcriptions_create
              (Demo.services Demo.heard (Demo.answers Demo.skewed_score)) (path f))
           3 "Transcription" (mkWorld (0, 0)%nat {[Demo.stored]} ∅ [] [])
         = Some (Resolved t, w1)
      /\ retryOperation
           (completions_create
              (Demo.services Demo.heard (Demo.answers Demo.skewed_score))
              (user_content q t))
           3 "Evaluation" w1
         = Some (Resolved r, w2)
      /\ AssessmentBody true "What is photosynthesis?"
           (Some "Plants turn light into sugar.") Demo.skewed_assessment Demo.metadata =
           AssessmentBody true q t
             (match generated_text r with
              | Some text =>
                  match JSON.parse text with
                  | Some v => v
                  | None => fallback_evaluation
                  end
              | None => fallback_evaluation
              end) meta)
  /\ Assessment.score_invariant fallback_evaluation = true.
Proof.
  apply (returned_assessment_is_parsed_or_fallback
           (Demo.services Demo.heard (Demo.answers Demo.skewed_score))
           (mkRequest (Some (mkFile Demo.stored "audio-1700000000000-42.mp3" "answer.mp3" 2048))
                      (Some "What is photosynthesis?"))
           (mkResponse 200
              (AssessmentBody true "What is photosynthesis?"
                 (Some "Plants turn light into sugar.")
                 Demo.skewed_assessment Demo.metadata))
           (mkWorld (0, 0)%nat {[Demo.stored]} ∅ [] [])
           (mkWorld (1, 1)%nat ∅ ∅ [] [])).
  - vm_compute. reflexivity.
  - reflexivity.
Defined.

(** C6 (the code departs from the specification). The fallback assessment lists
    one strength and one area to improve, not two to four, so it is not a
    well-formed Assessment of the data model; it is what the caller gets
    when the generated text is not JSON. *)
Theorem fallback_lists_hold_one_point :
  JSON.get "strengths" fallback_evaluation
    = Some (JSON.JArray [JSON.JString (JSON.units "Good effort")])
  /\ JSON.get "areasToImprove" fallback_evaluation
    = Some (JSON.JArray [JSON.JString (JSON.units "Could improve structure")])
  /\ Assessment.points (JSON.get "strengths" fallback_evaluation) = false
  /\ Assessment.points (JSON.get "areasToImprove" fallback_evaluation) = false
  /\ Assessment.well_formed fallback_evaluation = false
  /\ post_assessment Demo.cfg
       (Demo.services Demo.heard (Demo.answers "Sorry, I cannot grade this."))
       1700000000000 42 Demo.request Demo.world
     = Some (Resolved (mkResponse 200
               (AssessmentBody true "What is photosynthesis?"
                  (Some "Plants turn light into sugar.")
                  fallback_evaluation Demo.metadata)),
             mkWorld (1, 1)%nat ∅ ∅
               [LogErr "Error parsing evaluation JSON:" (mkError "SyntaxError")] []).
Proof.
  repeat split; reflexivity.
Qed.

Lemma includes_app_r (a b search : string) :
  JS.includes b search = true -> JS.includes (a +:+ b) search = true.
Proof.
  intros H. induction a as [|c a IH]; [exact H|].
  simpl. rewrite IH. apply orb_true_r.
Qed.

(** C8. When a retried call of the pipeline is rejected for good, the
    handler answers 500 with [details] the message of the error it caught
    and [error] chosen by the first of these that holds: the message
    includes "ECONNRESET" (connectivity), includes "API key" (credential),
    includes "rate limit" (rate limit); otherwise the generic text.  The
    message of an exhausted retry includes whatever the message of the
    last failure includes. *)
Theorem pipeline_failure_is_classified {X} (svc : Services X)
    (req : Request) (f : File) (q : string) (e : Error) (w w1 : World X) :
  file req = Some f -> question req = Some q -> q <> EmptyString ->
  (retryOperation (transcriptions_create svc (path f)) 3 "Transcription" w
     = Some (Rejected e, w1)
   \/ exists t w0,
       retryOperation (transcriptions_create svc (path f)) 3 "Transcription" w
         = Some (Resolved t, w0)
       /\ retryOperation (completions_create svc (user_content q t)) 3 "Evaluation" w0
         = Some (Rejected e, w1)) ->
  (exists w',
      assessment_handler svc req w =
        Some (Resolved (mkResponse 500
                (ErrorDetailsBody (errorMessage (message e)) (message e))), w'))
  /\ (JS.includes (message e) "ECONNRESET" = true ->
      errorMessage (message e) =
        "Network connection issue. Please check your internet connection and try again.")
  /\ (JS.includes (message e) "ECONNRESET" = false ->
      JS.includes (message e) "API key" = true ->
      errorMessage (message e) = "OpenAI API key issue. Please check your configuration.")
  /\ (JS.includes (message e) "ECONNRESET" = false ->
      JS.includes (message e) "API key" = false ->
      JS.includes (message e) "rate limit" = true ->
      errorMessage (message e) =
        "OpenAI rate limit exceeded. Please wait a moment and try again.")
  /\ (JS.includes (message e) "ECONNRESET" = false ->
      JS.includes (message e) "API key" = false ->
      JS.includes (message e) "rate limit" = false ->
      errorMessage (message e) = "Failed to assess audio")
  /\ (forall name last search,
      JS.includes (message last) search = true ->
      JS.includes (message (aggregated_error 3 name last)) search = true).
Proof.
  intros Hf Hq Hne Hfail. split.
  - rewrite (assessment_handler_valid svc req f q w Hf Hq Hne).
    destruct Hfail as [H1 | (t & w0 & H1 & H2)].
    + rewrite H1. apply assessment_catch_runs.
    + rewrite H1, H2. apply assessment_catch_runs.
  - unfold errorMessage. repeat split.
    + intros ->. reflexivity.
    + intros -> ->. reflexivity.
    + intros -> -> ->. reflexivity.
    + intros -> -> ->. reflexivity.
    + intros name last search H. unfold aggregated_error. cbn [message].
      repeat apply includes_app_r. exact H.
Qed.

Lemma pipeline_failure_is_classified_witness :
  (exists w',
      assessment_handler (Demo.services Demo.heard Demo.unreachable)
        (mkRequest (Some (mkFile Demo.stored "audio-1700000000000-42.mp3" "answer.mp3" 2048))
                   (Some "What is photosynthesis?"))
        (mkWorld (0, 0)%nat {[Demo.stored]} ∅ [] []) =
        Some (Resolved (mkResponse 500
                (ErrorDetailsBody
                   "Network connection issue. Please check your internet connection and try again."
                   "Failed to complete evaluation after 3 attempts: read ECONNRESET")), w')).
Proof.
  pose proof (pipeline_failure_is_classified (Demo.services Demo.heard Demo.unreachable)
           (mkRequest (Some (mkFile Demo.stored "audio-1700000000000-42.mp3" "answer.mp3" 2048))
                      (Some "What is photosynthesis?"))
           (mkFile Demo.stored "audio-1700000000000-42.mp3" "answer.mp3" 2048)
           "What is photosynthesis?"
           (mkError "Failed to complete evaluation after 3 attempts: read ECONNRESET")
           (mkWorld (0, 0)%nat {[Demo.stored]} ∅ [] [])
           (mkWorld (1, 3)%nat {[Demo.stored]} ∅
              [LogMsg "Evaluation attempt 1 failed:" "read ECONNRESET";
               LogMsg "Evaluation attempt 2 failed:" "read ECONNRESET";
               LogMsg "Evaluation attempt 3 failed:" "read ECONNRESET"]
              [1000; 2000])
           eq_refl eq_refl) as H.
  apply H.
  - discriminate.
  - right. exists (Some "Plants turn light into sugar."),
      (mkWorld (1, 0)%nat {[Demo.stored]} ∅ [] []).
    split; vm_compute; reflexivity.
Defined.

(** C9. Whatever the method and the URL, the body of the 404 response
    names [POST /api/assess] as the available endpoint, which is not the
    path the assessment route is registered under, [/api/assessment]. *)
Theorem not_found_names_another_endpoint (method originalUrl : string) :
  not_found_handler method originalUrl =
    mkResponse 404
      (NotFoundBody "Endpoint not found"
         ("The endpoint " +:+ method +:+ " " +:+ originalUrl +:+ " does not exist")
         "POST /api/assess")
  /\ "POST /api/assess" <> "POST " +:+ assessment_route
  /\ "/api/assess" <> assessment_route.
Proof.
  split; [reflexivity|]. split; discriminate.
Qed.

(** * Further properties of the code *)

(** ** More about [retryOperation] *)

Section RetryOutcomes.
Context {X A : Type}.
Variable operation : X -> outcome A * X.
Variable maxRetries : Z.
Variable operationName : string.

(** What a run of the loop can end in, read back from its result. *)
Lemma retry_loop_inversion budget : forall retryCount w r w',
  retryCount < maxRetries ->
  retry_loop operation maxRetries operationName budget retryCount w = Some (r, w') ->
  exists errors x',
    failing_run operation (ext w) errors x'
    /\ retryCount + Z.of_nat (length errors) < maxRetries
    /\ disk w' = disk w /\ undeletable w' = undeletable w
    /\ timers w' = timers w ++ backoff_delays retryCount (length errors)
    /\ ((exists v, r = Resolved (Some v) /\ operation x' = (Resolved v, ext w')
                   /\ console w' = console w ++ failure_lines operationName retryCount errors)
        \/ (exists e, r = Rejected (aggregated_error maxRetries operationName e)
                      /\ operation x' = (Rejected e, ext w')
                      /\ retryCount + Z.of_nat (length errors) + 1 = maxRetries
                      /\ console w' = console w
                           ++ failure_lines operationName retryCount (errors ++ [e]))).
Proof.
  induction budget as [|b IH]; intros retryCount w r w' Hlt H; simpl in H.
  - apply Z.ltb_lt in Hlt. rewrite Hlt in H. discriminate.
  - pose proof Hlt as Hlt'. apply Z.ltb_lt in Hlt'. rewrite Hlt' in H.
    destruct (operation (ext w)) as [[v|e] x1] eqn:Hop.
    + inversion H; subst. exists [], (ext w). simpl.
      rewrite !app_nil_r. split; [constructor|]. split; [lia|].
      do 3 (split; [reflexivity|]).
      left. exists v. auto.
    + destruct (retryCount + 1 >=? maxRetries) eqn:E.
      * rewrite Z.geb_leb in E. apply Z.leb_le in E.
        inversion H; subst. exists [], (ext w). simpl.
        rewrite !app_nil_r. split; [constructor|]. split; [lia|].
        do 3 (split; [reflexivity|]).
        right. exists e. repeat split; auto. lia.
      * rewrite Z.geb_leb in E. apply Z.leb_gt in E.
        apply IH in H; [|exact E].
        destruct H as (errors & x' & Hrun & Hlen & Hd & Hu & Ht & Hcase).
        exists (e :: errors), x'. cbn [length]. rewrite Nat2Z.inj_succ.
        simpl in Hd, Hu, Ht. split; [econstructor; eassumption|].
        split; [lia|]. split; [exact Hd|]. split; [exact Hu|].
        split; [rewrite Ht, <- app_assoc; reflexivity|].
        destruct Hcase as [(v & -> & Hv & Hc) | (e' & -> & He & Hn & Hc)].
        -- left. exists v. repeat split; auto.
           simpl in Hc. rewrite Hc, <- app_assoc. reflexivity.
        -- right. exists e'. repeat split; auto; [lia|].
           simpl in Hc. rewrite Hc, <- app_assoc. reflexivity.
Qed.

Lemma backoff_delays_sum k : forall retryCount,
  sum_Z (backoff_delays retryCount k)
  = 1000 * Z.of_nat k * retryCount + 500 * Z.of_nat k * (Z.of_nat k + 1).
Proof.
  induction k as [|k IH]; intros retryCount; [simpl; lia|].
  cbn [backoff_delays sum_Z foldr]. fold (sum_Z (backoff_delays (retryCount + 1) k)).
  rewrite IH. lia.
Qed.

Lemma backoff_delays_length k : forall retryCount,
  length (backoff_delays retryCount k) = k.
Proof. induction k as [|k IH]; intros; simpl; [reflexivity | f_equal; apply IH]. Qed.

Lemma backoff_delays_lookup k : forall retryCount i,
  (i < k)%nat ->
  backoff_delays retryCount k !! i = Some (1000 * (retryCount + Z.of_nat i + 1)).
Proof.
  induction k as [|k IH]; intros retryCount i Hi; [lia|].
  destruct i as [|i]; simpl.
  - f_equal. lia.
  - rewrite IH by lia. f_equal. lia.
Qed.

Lemma sum_Z_app l1 l2 : sum_Z (l1 ++ l2) = sum_Z l1 + sum_Z l2.
Proof. induction l1 as [|a l1 IH]; simpl; [reflexivity | unfold sum_Z in *; simpl; lia]. Qed.

End RetryOutcomes.

Lemma failing_run_measure {X A} (operation : X -> outcome A * X) (g : X -> nat) (step : nat) :
  (forall x, g (snd (operation x)) = (g x + step)%nat) ->
  forall x errors x', failing_run operation x errors x' ->
                      g x' = (g x + step * length errors)%nat.
Proof.
  intros Hg x errors x'. induction 1 as [x|x e x1 errors x' Hop _ IH]; [simpl; lia|].
  rewrite IH. pose proof (Hg x) as H. rewrite Hop in H. simpl in H. rewrite H.
  cbn [length]. lia.
Qed.

(** X1. Whatever the operation and the bound [N >= 1], a call of
    [retryOperation] that ends was one of two runs: fewer than [N] failed
    attempts followed by a success, whose value is the result, or exactly
    [N] failed attempts, which make it throw the aggregated error of the
    last one.  It never resolves to [undefined], it leaves the files alone,
    and it has awaited one delay for each failed attempt but the last. *)
Theorem retryOperation_outcomes {X A} (operation : X -> outcome A * X)
    (maxRetries : Z) (name : string) (w w' : World X) (r : outcome (option A)) :
  0 < maxRetries ->
  retryOperation operation maxRetries name w = Some (r, w') ->
  exists errors x',
    failing_run operation (ext w) errors x'
    /\ Z.of_nat (length errors) < maxRetries
    /\ disk w' = disk w /\ undeletable w' = undeletable w
    /\ timers w' = timers w ++ backoff_delays 0 (length errors)
    /\ ((exists v, r = Resolved (Some v) /\ operation x' = (Resolved v, ext w'))
        \/ (exists e, r = Rejected (aggregated_error maxRetries name e)
                      /\ operation x' = (Rejected e, ext w')
                      /\ Z.of_nat (length errors) + 1 = maxRetries)).
Proof.
  intros Hpos H. unfold retryOperation in H.
  apply retry_loop_inversion in H; [|exact Hpos].
  destruct H as (errors & x' & Hrun & Hlen & Hd & Hu & Ht & Hcase).
  exists errors, x'. split; [exact Hrun|]. split; [lia|].
  split; [exact Hd|]. split; [exact Hu|]. split; [exact Ht|].
  destruct Hcase as [(v & -> & Hv & _) | (e & -> & He & Hn & _)].
  - left. exists v. auto.
  - right. exists e. split; [reflexivity|]. split; [exact He | lia].
Qed.

Lemma retryOperation_outcomes_witness :
  exists errors x',
    failing_run Demo.flaky 0%nat errors x'
    /\ Z.of_nat (length errors) < 3
    /\ disk (mkWorld 3%nat ∅ ∅
               [LogMsg "Transcription attempt 1 failed:" "socket hang up";
                LogMsg "Transcription attempt 2 failed:" "socket hang up"]
               [1000; 2000]) = disk Demo.idle
    /\ undeletable (mkWorld 3%nat ∅ ∅
               [LogMsg "Transcription attempt 1 failed:" "socket hang up";
                LogMsg "Transcription attempt 2 failed:" "socket hang up"]
               [1000; 2000]) = undeletable Demo.idle
    /\ [1000; 2000] = timers Demo.idle ++ backoff_delays 0 (length errors)
    /\ ((exists v, Resolved (Some "done") = Resolved (Some v)
                   /\ Demo.flaky x' = (Resolved v, 3%nat))
        \/ (exists e, Resolved (Some "done") = Rejected (aggregated_error 3 "Transcription" e)
                      /\ Demo.flaky x' = (Rejected e, 3%nat)
                      /\ Z.of_nat (length errors) + 1 = 3)).
Proof.
  apply (retryOperation_outcomes Demo.flaky 3 "Transcription" Demo.idle
           (mkWorld 3%nat ∅ ∅
              [LogMsg "Transcription attempt 1 failed:" "socket hang up";
               LogMsg "Transcription attempt 2 failed:" "socket hang up"]
              [1000; 2000])
           (Resolved (Some "done"))).
  - lia.
  - reflexivity.
Defined.

(** X2. For any bound [N >= 1] a counting mock shows between 1 and [N]
    invocations; the delays awaited are one fewer than the invocations,
    the i-th of them [i] seconds long (linear, not exponential); together
    they last at most [500 * N * (N - 1)] milliseconds. *)
Theorem retryOperation_budget {X A} (operation : X -> outcome A * X)
    (maxRetries : Z) (name : string) (n : nat) (w : World X)
    (w' : World (X * nat)) (r : outcome (option A)) :
  0 < maxRetries ->
  retryOperation (counted operation) maxRetries name (with_counter n w) = Some (r, w') ->
  exists delays,
    timers w' = timers w ++ delays
    /\ (n < snd (ext w'))%nat
    /\ Z.of_nat (snd (ext w')) <= Z.of_nat n + maxRetries
    /\ S (length delays + n) = snd (ext w')
    /\ (forall i, (i < length delays)%nat -> delays !! i = Some (1000 * (Z.of_nat i + 1)))
    /\ sum_Z delays <= 500 * maxRetries * (maxRetries - 1).
Proof.
  intros Hpos H. unfold retryOperation in H.
  apply retry_loop_inversion in H; [|exact Hpos].
  destruct H as (errors & x' & Hrun & Hlen & _ & _ & Ht & Hcase).
  assert (Hcount : snd x' = (n + length errors)%nat).
  { pose proof (failing_run_measure (counted operation) snd 1) as Hm.
    rewrite (Hm (ltac:(intros [x k]; unfold counted; simpl;
                        destruct (operation x); simpl; lia)) _ _ _ Hrun).
    simpl. lia. }
  assert (Hlast : snd (ext w') = S (snd x')).
  { destruct x' as [x k]. unfold counted in Hcase. simpl in Hcase.
    destruct (operation x) as [r0 x0].
    destruct Hcase as [(v & _ & Hv & _) | (e & _ & He & _)];
      [inversion Hv | inversion He]; reflexivity. }
  exists (backoff_delays 0 (length errors)). simpl in Ht.
  rewrite backoff_delays_length, backoff_delays_sum, Hlast, Hcount.
  repeat split; try lia; [exact Ht | | nia].
  intros i Hi. rewrite backoff_delays_lookup by exact Hi. f_equal.
Qed.

Lemma retryOperation_budget_witness :
  exists delays,
    [1000; 2000] = timers Demo.idle ++ delays
    /\ (0 < 3)%nat
    /\ Z.of_nat 3 <= Z.of_nat 0 + 3
    /\ S (length delays + 0) = 3%nat
    /\ (forall i, (i < length delays)%nat -> delays !! i = Some (1000 * (Z.of_nat i + 1)))
    /\ sum_Z delays <= 500 * 3 * (3 - 1).
Proof.
  apply (retryOperation_budget Demo.broken 3 "Evaluation" 0%nat Demo.idle
           (mkWorld (3%nat, 3%nat) ∅ ∅
              [LogMsg "Evaluation attempt 1 failed:" "rate limit reached";
               LogMsg "Evaluation attempt 2 failed:" "rate limit reached";
               LogMsg "Evaluation attempt 3 failed:" "rate limit reached"]
              [1000; 2000])
           (Rejected (mkError
              "Failed to complete evaluation after 3 attempts: rate limit reached"))).
  - lia.
  - reflexivity.
Defined.

(** ** More about [cleanupFile] *)

Lemma cleanupFile_frame {X} (filePath : option string) (w : World X) :
  exists w',
    cleanupFile filePath w = Some (Resolved tt, w')
    /\ ext w' = ext w /\ timers w' = timers w /\ undeletable w' = undeletable w
    /\ disk w' ⊆ disk w
    /\ (forall p, p ∈ disk w -> Some p <> filePath -> p ∈ disk w')
    /\ (console w' = console w \/ exists e, console w' = console w ++ [e]).
Proof.
  unfold cleanupFile. destruct filePath as [p|].
  2:{ exists w. repeat split; auto. }
  destruct (JS.truthy (Some p) && fs_existsSync p w).
  2:{ exists w. repeat split; auto. }
  unfold try_catch, fs_unlinkSync.
  destruct (bool_decide (p ∈ disk w)); [destruct (bool_decide (p ∈ undeletable w))|];
    eexists; (split; [reflexivity|]); simpl; repeat split; auto; try (right; eauto; fail).
  - apply subseteq_difference_l. reflexivity.
  - intros q Hq Hne. apply elem_of_difference. split; [exact Hq|].
    rewrite elem_of_singleton. congruence.
Qed.

(** X3. [cleanupFile] never throws, whatever it is given; it leaves the
    collaborators, the timers and every other file alone, and it logs at
    most one line. *)
Theorem cleanupFile_is_contained {X} (filePath : option string) (w : World X) :
  exists w',
    cleanupFile filePath w = Some (Resolved tt, w')
    /\ ext w' = ext w /\ timers w' = timers w /\ undeletable w' = undeletable w
    /\ disk w' ⊆ disk w
    /\ (forall p, p ∈ disk w -> Some p <> filePath -> p ∈ disk w')
    /\ (console w' = console w \/ exists e, console w' = console w ++ [e]).
Proof. exact (cleanupFile_frame filePath w). Qed.

Lemma cleanupFile_absent {X} (p : string) (w : World X) :
  p ∉ disk w -> cleanupFile (Some p) w = Some (Resolved tt, w).
Proof.
  intros Hp. unfold cleanupFile, fs_existsSync. rewrite (bool_decide_eq_false_2 _ Hp).
  rewrite andb_false_r. reflexivity.
Qed.

(** X4. [cleanupFile] does nothing at all for an undefined path, for the
    empty path and for a path with no file. *)
Theorem cleanupFile_without_file {X} (filePath : option string) (w : World X) :
  (filePath = None \/ filePath = Some EmptyString
   \/ exists p, filePath = Some p /\ (p ∉ disk w)) ->
  cleanupFile filePath w = Some (Resolved tt, w).
Proof.
  intros [-> | [-> | (p & -> & Hp)]]; try reflexivity.
  apply cleanupFile_absent, Hp.
Qed.

Lemma cleanupFile_without_file_witness :
  cleanupFile (Some "uploads/gone.mp3") Demo.idle = Some (Resolved tt, Demo.idle).
Proof.
  apply (cleanupFile_without_file (Some "uploads/gone.mp3") Demo.idle).
  right. right. exists "uploads/gone.mp3". split; [reflexivity|].
  apply not_elem_of_empty.
Defined.

(** X5. Where the unlink is not refused, a first [cleanupFile] removes
    the file and a second one finds nothing to do: releasing twice is the
    same as releasing once. *)
Theorem cleanupFile_twice {X} (p : string) (w w1 : World X) :
  p ∉ undeletable w ->
  cleanupFile (Some p) w = Some (Resolved tt, w1) ->
  (p <> EmptyString -> p ∉ disk w1)
  /\ cleanupFile (Some p) w1 = Some (Resolved tt, w1).
Proof.
  intros Hu H. destruct p as [|c p]; [split; [congruence | reflexivity]|].
  assert (Hgone : String c p ∉ disk w1).
  { revert H. unfold cleanupFile, fs_existsSync. cbn [JS.truthy andb].
    destruct (bool_decide (String c p ∈ disk w)) eqn:Hd.
    - unfold try_catch, fs_unlinkSync. rewrite Hd.
      rewrite (bool_decide_eq_false_2 _ Hu). intros H; inversion H; subst. simpl.
      rewrite elem_of_difference, elem_of_singleton. tauto.
    - apply bool_decide_eq_false in Hd. intros H; inversion H; subst. exact Hd. }
  split; [intros _; exact Hgone|].
  apply cleanupFile_absent, Hgone.
Qed.

Lemma cleanupFile_twice_witness :
  ("uploads/a.mp3" <> EmptyString ->
   "uploads/a.mp3" ∉ disk Demo.idle)
  /\ cleanupFile (Some "uploads/a.mp3") Demo.idle = Some (Resolved tt, Demo.idle).
Proof.
  apply (cleanupFile_twice "uploads/a.mp3"
           (mkWorld 0%nat {["uploads/a.mp3"]} ∅ [] []) Demo.idle).
  - apply not_elem_of_empty.
  - vm_compute. reflexivity.
Defined.

(** ** More about the handler *)

Lemma parse_evaluation_cases {X} (r : option ChatCompletion) (w : World X) :
  match generated_text r with
  | Some text =>
      match JSON.parse text with
      | Some v => parse_evaluation r w = Some (Resolved v, w)
      | None =>
          parse_evaluation r w =
            Some (Resolved fallback_evaluation,
                  console_error "Error parsing evaluation JSON:" (mkError "SyntaxError") w)
      end
  | None =>
      parse_evaluation r w =
        Some (Resolved fallback_evaluation,
              console_error "Error parsing evaluation JSON:" (mkError "TypeError") w)
  end.
Proof.
  unfold parse_evaluation, try_catch, parse_content, generated_text.
  destruct r as [[[|c cs]]|]; simpl; try reflexivity.
  destruct (JSON.parse _); reflexivity.
Qed.

Ltac decode_cases :=
  intros;
  repeat match goal with
         | H : _ \/ _ |- _ => destruct H
         | H : ex _ |- _ => destruct H
         | H : _ /\ _ |- _ => destruct H
         end;
  simplify_eq /=;
  try match goal with Hp : JSON.parse _ = _ |- _ => rewrite Hp end;
  auto.

(** X6. The decoding step never throws and touches nothing but the
    console.  A response without a first choice yields the fallback; a
    [null] content is parsed as the text [null] and yields the JSON value
    [null], not the fallback; a text that parses yields its value, and
    nothing is logged; a text that does not parse yields the fallback.
    The parse error is logged exactly when the fallback is substituted. *)
Theorem parse_evaluation_decodes_or_falls_back {X}
    (r : option ChatCompletion) (w : World X) :
  exists a w',
    parse_evaluation r w = Some (Resolved a, w')
    /\ ext w' = ext w /\ disk w' = disk w /\ timers w' = timers w
    /\ (r = None \/ (exists c, r = Some c /\ choices c = []) ->
        a = fallback_evaluation)
    /\ (forall cs, r = Some (mkChatCompletion (mkChoice (mkChatMessage None) :: cs)) ->
        a = JSON.JNull /\ w' = w)
    /\ (forall text cs,
        r = Some (mkChatCompletion (mkChoice (mkChatMessage (Some text)) :: cs)) ->
        match JSON.parse text with
        | Some v => a = v /\ w' = w
        | None =>
            a = fallback_evaluation
            /\ console w' = console w
                 ++ [LogErr "Error parsing evaluation JSON:" (mkError "SyntaxError")]
        end).
Proof.
  pose proof (parse_evaluation_cases r w) as H.
  destruct r as [[[|[[[text|]]] cs]]|]; simpl in H;
    [| destruct (JSON.parse text) as [v|] eqn:Hp | |];
    (eexists _, _; split; [exact H|]); simpl;
    repeat apply conj; try reflexivity; decode_cases.
Qed.

(** The prefix of an aggregated message brings no mention of its own. *)
Lemma includes_aggregated (last : Error) :
  forall search, In search ["ECONNRESET"; "API key"; "rate limit"] ->
    JS.includes (message (aggregated_error 3 "Transcription" last)) search
      = JS.includes (message last) search
    /\ JS.includes (message (aggregated_error 3 "Evaluation" last)) search
      = JS.includes (message last) search.
Proof.
  intros search [<- | [<- | [<- | []]]]; split; reflexivity.
Qed.

(** X7. For the two labels the handler uses, wrapping the last failure
    in the aggregated error of an exhausted retry does not change the
    category the [catch] block assigns: it is the category of the message
    of the failure itself. *)
Theorem aggregated_error_keeps_category (last : Error) :
  errorMessage (message (aggregated_error 3 "Transcription" last))
    = errorMessage (message last)
  /\ errorMessage (message (aggregated_error 3 "Evaluation" last))
    = errorMessage (message last).
Proof.
  pose proof (includes_aggregated last) as H.
  destruct (H "ECONNRESET" ltac:(simpl; auto)) as [H1 H1'].
  destruct (H "API key" ltac:(simpl; auto)) as [H2 H2'].
  destruct (H "rate limit" ltac:(simpl; auto)) as [H3 H3'].
  unfold errorMessage. rewrite H1, H2, H3, H1', H2', H3'. split; reflexivity.
Qed.

(** ** The course of a request *)

(** A retry with three attempts, seen through any counter of the
    invocations of its operation. *)
Lemma retryOperation_three_steps {X A} (operation : X -> outcome A * X)
    (name : string) (w w' : World X) (r : outcome (option A)) :
  retryOperation operation 3 name w = Some (r, w') ->
  exists k,
    (k < 3)%nat
    /\ timers w' = timers w ++ backoff_delays 0 k
    /\ disk w' = disk w /\ undeletable w' = undeletable w
    /\ forall (g : X -> nat) (step : nat),
        (forall x, g (snd (operation x)) = (g x + step)%nat) ->
        g (ext w') = (g (ext w) + step * S k)%nat.
Proof.
  intros H. unfold retryOperation in H.
  apply retry_loop_inversion in H; [|lia].
  destruct H as (errors & x' & Hrun & Hlen & Hd & Hu & Ht & Hcase).
  exists (length errors). split; [lia|]. split; [exact Ht|].
  split; [exact Hd|]. split; [exact Hu|].
  intros g step Hg.
  rewrite <- (Nat.add_1_r (length errors)), Nat.mul_add_distr_l, Nat.add_assoc.
  rewrite <- (failing_run_measure operation g step Hg _ _ _ Hrun).
  pose proof (Hg x') as Hx.
  destruct Hcase as [(v & _ & Hv & _) | (e & _ & He & _)];
    [rewrite Hv in Hx | rewrite He in Hx]; simpl in Hx; lia.
Qed.

Lemma backoff_delays_small k :
  (k < 3)%nat ->
  (length (backoff_delays 0 k) <= 2)%nat /\ sum_Z (backoff_delays 0 k) <= 3000.
Proof.
  intros Hk. rewrite backoff_delays_length, backoff_delays_sum. split; [lia | nia].
Qed.

Section CourseFacts.
Context {X : Type}.
Variable svc : Services X.

Lemma assessment_catch_frame req e (w : World X) :
  exists w',
    assessment_catch req e w =
      Some (Resolved (mkResponse 500
              (ErrorDetailsBody (errorMessage (message e)) (message e))), w')
    /\ ext w' = ext w /\ timers w' = timers w /\ undeletable w' = undeletable w
    /\ disk w' ⊆ disk w.
Proof.
  unfold assessment_catch, bind, effect.
  destruct (cleanupFile_frame (option_map path (file req))
              (console_error "Error assessing audio:" e w))
    as (w' & Hc & He & Ht & Hu & Hd & _).
  rewrite Hc. exists w'. split; [reflexivity|]. auto.
Qed.

Lemma assessment_handler_course req (w : World X) :
  exists resp w',
    assessment_handler svc req w = Some (Resolved resp, w') /\ Course svc req w resp w'.
Proof.
  destruct (file req) as [f|] eqn:Hf.
  2:{ unfold assessment_handler, try_catch, assessment_try. rewrite Hf.
      eexists _, _. split; [reflexivity|]. apply course_rejected; auto. }
  destruct (JS.truthy (question req)) eqn:Ht.
  2:{ unfold assessment_handler, try_catch, assessment_try. rewrite Hf, Ht.
      eexists _, _. split; [reflexivity|]. apply course_rejected; auto. }
  destruct (question req) as [[|c q]|] eqn:Hq; try discriminate.
  assert (Hne : String c q <> EmptyString) by discriminate.
  rewrite (assessment_handler_valid svc req f _ w Hf Hq Hne).
  destruct (retryOperation_runs (transcriptions_create svc (path f)) "Transcription" w)
    as ([t|e] & w1 & H1 & _); rewrite H1.
  2:{ destruct (assessment_catch_frame req e w1) as (w' & Hc & He & Ht' & _).
      eexists _, _. split; [exact Hc|].
      eapply course_transcription_failed; eauto. }
  destruct (retryOperation_runs (completions_create svc (user_content (String c q) t))
              "Evaluation" w1) as ([r|e] & w2 & H2 & _); rewrite H2.
  2:{ destruct (assessment_catch_frame req e w2) as (w' & Hc & He & Ht' & _).
      eexists _, _. split; [exact Hc|].
      eapply course_evaluation_failed; eauto. }
  destruct (cleanupFile_frame (Some (path f)) w2) as (w3 & Hc & He3 & Ht3 & _).
  pose proof (parse_evaluation_cases r w3) as Hp. rewrite Hc.
  destruct (generated_text r) as [text|]; [destruct (JSON.parse text)|];
    rewrite Hp; (eexists _, _; split; [reflexivity|]);
    eapply course_succeeded; eauto.
Qed.

End CourseFacts.

Lemma assessment_handler_follows_course {X} (svc : Services X) req (w : World X) resp w' :
  assessment_handler svc req w = Some (Resolved resp, w') -> Course svc req w resp w'.
Proof.
  intros H. destruct (assessment_handler_course svc req w) as (resp0 & w0 & H0 & Hc).
  rewrite H0 in H. inversion H; subst. exact Hc.
Qed.

(** X8. The handler answers every request: no error escapes it, and the
    status is 200, 400 or 500.  A 400 leaves the world exactly as it was:
    nothing is called, logged, awaited or deleted. *)
Theorem assessment_handler_always_answers {X} (svc : Services X)
    (req : Request) (w : World X) :
  exists resp w',
    assessment_handler svc req w = Some (Resolved resp, w')
    /\ (status resp = 200 \/ status resp = 400 \/ status resp = 500)
    /\ (status resp = 400 -> w' = w).
Proof.
  destruct (assessment_handler_course svc req w) as (resp & w' & H & Hc).
  exists resp, w'. split; [exact H|].
  destruct Hc as [_ Hs Hw | f q e w1 _ _ _ _ -> _ _ | f q t e w1 w2 _ _ _ _ _ -> _ _
                  | f q t r w1 w2 _ _ _ _ _ Hs _ _].
  - split; [auto | intros _; exact Hw].
  - split; [auto | discriminate].
  - split; [auto | discriminate].
  - split; [auto | rewrite Hs; discriminate].
Qed.

(** X9. When the transcription retries are exhausted the generation
    capability is never called: the request ends with the 500 of that
    error, the collaborators in the state the last transcription attempt
    left them in, and nothing more awaited. *)
Theorem transcription_failure_skips_generation {X} (svc : Services X)
    (req : Request) (f : File) (q : string) (e : Error) (w w1 : World X) :
  file req = Some f -> question req = Some q -> q <> EmptyString ->
  retryOperation (transcriptions_create svc (path f)) 3 "Transcription" w
    = Some (Rejected e, w1) ->
  exists w',
    assessment_handler svc req w =
      Some (Resolved (mkResponse 500
              (ErrorDetailsBody (errorMessage (message e)) (message e))), w')
    /\ ext w' = ext w1 /\ timers w' = timers w1.
Proof.
  intros Hf Hq Hne H1.
  rewrite (assessment_handler_valid svc req f q w Hf Hq Hne), H1.
  destruct (assessment_catch_frame req e w1) as (w' & Hc & He & Ht & _).
  exists w'. auto.
Qed.

Lemma transcription_failure_skips_generation_witness :
  exists w',
    assessment_handler (Demo.services Demo.unreachable (Demo.answers Demo.sound_score))
      (mkRequest (Some (mkFile Demo.stored "audio-1700000000000-42.mp3" "answer.mp3" 2048))
                 (Some "What is photosynthesis?"))
      (mkWorld (0, 0)%nat {[Demo.stored]} ∅ [] []) =
      Some (Resolved (mkResponse 500
              (ErrorDetailsBody
                 (errorMessage "Failed to complete transcription after 3 attempts: read ECONNRESET")
                 "Failed to complete transcription after 3 attempts: read ECONNRESET")), w')
    /\ ext w' = (3, 0)%nat /\ timers w' = [1000; 2000].
Proof.
  apply (transcription_failure_skips_generation
           (Demo.services Demo.unreachable (Demo.answers Demo.sound_score))
           (mkRequest (Some (mkFile Demo.stored "audio-1700000000000-42.mp3" "answer.mp3" 2048))
                      (Some "What is photosynthesis?"))
           (mkFile Demo.stored "audio-1700000000000-42.mp3" "answer.mp3" 2048)
           "What is photosynthesis?"
           (mkError "Failed to complete transcription after 3 attempts: read ECONNRESET")
           (mkWorld (0, 0)%nat {[Demo.stored]} ∅ [] [])
           (mkWorld (3, 0)%nat {[Demo.stored]} ∅
              [LogMsg "Transcription attempt 1 failed:" "read ECONNRESET";
               LogMsg "Transcription attempt 2 failed:" "read ECONNRESET";
               LogMsg "Transcription attempt 3 failed:" "read ECONNRESET"]
              [1000; 2000])).
  - reflexivity.
  - reflexivity.
  - discriminate.
  - vm_compute. reflexivity.
Defined.

(** X10. With an audio file present, the handler rejects the request
    with 400 exactly when the question is undefined or the empty string;
    any other question, one of white space only included, sends the
    request down the pipeline. *)
Theorem question_rejected_iff_falsy {X} (svc : Services X)
    (req : Request) (f : File) (w w' : World X) (resp : Response) :
  file req = Some f ->
  assessment_handler svc req w = Some (Resolved resp, w') ->
  (status resp = 400 <-> question req = None \/ question req = Some EmptyString)
  /\ (status resp = 400 ->
      body resp = ErrorMessageBody "No question provided"
                    "Please provide a question in the request body").
Proof.
  intros Hf H.
  assert (Hfalsy : JS.truthy (question req) = false <->
                   question req = None \/ question req = Some EmptyString).
  { destruct (question req) as [[|c q]|]; simpl; split; intros H0; auto;
      try discriminate; destruct H0; discriminate. }
  destruct (JS.truthy (question req)) eqn:Ht.
  - pose proof (assessment_handler_follows_course svc req w resp w' H) as Hc.
    assert (Hs : status resp <> 400).
    { destruct Hc as [Hn _ _ | f0 q e w1 _ _ _ _ Hr _ _ | f0 q t e w1 w2 _ _ _ _ _ Hr _ _
                      | f0 q t r w1 w2 _ _ _ _ _ Hs _ _].
      - destruct Hn as [Hn | Hn]; congruence.
      - rewrite Hr. discriminate.
      - rewrite Hr. discriminate.
      - rewrite Hs. discriminate. }
    split; [|intros; contradiction].
    split; [intros; contradiction|]. intros Hq. apply Hfalsy in Hq. discriminate.
  - unfold assessment_handler, try_catch, assessment_try in H. rewrite Hf, Ht in H.
    inversion H; subst. simpl. split; [|reflexivity].
    split; [intros _; apply Hfalsy; reflexivity | reflexivity].
Qed.

Lemma question_rejected_iff_falsy_witness :
  (400 = 400 <-> Some EmptyString = None \/ Some EmptyString = Some EmptyString)
  /\ (400 = 400 ->
      ErrorMessageBody "No question provided" "Please provide a question in the request body"
      = ErrorMessageBody "No question provided"
          "Please provide a question in the request body").
Proof.
  apply (question_rejected_iff_falsy
           (Demo.services Demo.heard (Demo.answers Demo.sound_score))
           (mkRequest (Some (mkFile Demo.stored "audio-1700000000000-42.mp3" "answer.mp3" 2048))
                      (Some EmptyString))
           (mkFile Demo.stored "audio-1700000000000-42.mp3" "answer.mp3" 2048)
           (mkWorld (0, 0)%nat {[Demo.stored]} ∅ [] [])
           (mkWorld (0, 0)%nat {[Demo.stored]} ∅ [] [])
           (mkResponse 400
              (ErrorMessageBody "No question provided"
                 "Please provide a question in the request body"))).
  - reflexivity.
  - vm_compute. reflexivity.
Defined.

Section CallBudget.
Context {X : Type}.
Variable svc : Services X.
Variables calls_stt calls_chat : X -> nat.
Hypothesis stt_counts : forall p x,
  calls_stt (snd (transcriptions_create svc p x)) = S (calls_stt x)
  /\ calls_chat (snd (transcriptions_create svc p x)) = calls_chat x.
Hypothesis chat_counts : forall u x,
  calls_chat (snd (completions_create svc u x)) = S (calls_chat x)
  /\ calls_stt (snd (completions_create svc u x)) = calls_stt x.

(** X11. One request makes at most three transcription calls and at most
    three generation calls, a generation call only after a transcription
    call, and awaits at most four backoff delays of at most six seconds
    in all. *)
Theorem request_call_budget (req : Request) (w w' : World X) (resp : Response) :
  assessment_handler svc req w = Some (Resolved resp, w') ->
  (calls_stt (ext w') <= calls_stt (ext w) + 3)%nat
  /\ (calls_chat (ext w') <= calls_chat (ext w) + 3)%nat
  /\ (calls_chat (ext w) < calls_chat (ext w') -> calls_stt (ext w) < calls_stt (ext w'))%nat
  /\ exists delays,
      timers w' = timers w ++ delays
      /\ (length delays <= 4)%nat /\ sum_Z delays <= 6000.
Proof.
  intros H. apply assessment_handler_follows_course in H.
  assert (Hstt : forall p (w0 w1 : World X) r,
             retryOperation (transcriptions_create svc p) 3 "Transcription" w0 = Some (r, w1) ->
             exists k, (k < 3)%nat /\ timers w1 = timers w0 ++ backoff_delays 0 k
                       /\ calls_stt (ext w1) = (calls_stt (ext w0) + S k)%nat
                       /\ calls_chat (ext w1) = calls_chat (ext w0)).
  { intros p w0 w1 r Hr. apply retryOperation_three_steps in Hr.
    destruct Hr as (k & Hk & Ht & _ & _ & Hg). exists k.
    split; [exact Hk|]. split; [exact Ht|]. split.
    - rewrite (Hg calls_stt 1%nat); [lia|]. intros x. rewrite (proj1 (stt_counts p x)). lia.
    - rewrite (Hg calls_chat 0%nat); [lia|]. intros x. rewrite (proj2 (stt_counts p x)). lia. }
  assert (Hchat : forall u (w0 w1 : World X) r,
             retryOperation (completions_create svc u) 3 "Evaluation" w0 = Some (r, w1) ->
             exists k, (k < 3)%nat /\ timers w1 = timers w0 ++ backoff_delays 0 k
                       /\ calls_chat (ext w1) = (calls_chat (ext w0) + S k)%nat
                       /\ calls_stt (ext w1) = calls_stt (ext w0)).
  { intros u w0 w1 r Hr. apply retryOperation_three_steps in Hr.
    destruct Hr as (k & Hk & Ht & _ & _ & Hg). exists k.
    split; [exact Hk|]. split; [exact Ht|]. split.
    - rewrite (Hg calls_chat 1%nat); [lia|]. intros x. rewrite (proj1 (chat_counts u x)). lia.
    - rewrite (Hg calls_stt 0%nat); [lia|]. intros x. rewrite (proj2 (chat_counts u x)). lia. }
  destruct H as [_ _ -> | f q e w1 _ _ _ H1 _ He Ht | f q t e w1 w2 _ _ _ H1 H2 _ He Ht
                 | f q t r w1 w2 _ _ _ H1 H2 _ He Ht].
  - repeat split; try lia. exists []. rewrite app_nil_r. simpl. repeat split; lia.
  - apply Hstt in H1. destruct H1 as (k & Hk & Ht1 & Hs & Hc).
    rewrite He, Ht, Hs, Hc, Ht1. repeat split; try lia.
    exists (backoff_delays 0 k). destruct (backoff_delays_small k Hk). repeat split; lia.
  - apply Hstt in H1. destruct H1 as (k & Hk & Ht1 & Hs & Hc).
    apply Hchat in H2. destruct H2 as (k2 & Hk2 & Ht2 & Hc2 & Hs2).
    rewrite He, Ht, Hc2, Hs2, Hs, Hc, Ht2, Ht1, <- app_assoc. repeat split; try lia.
    exists (backoff_delays 0 k ++ backoff_delays 0 k2).
    destruct (backoff_delays_small k Hk), (backoff_delays_small k2 Hk2).
    rewrite length_app, sum_Z_app. repeat split; lia.
  - apply Hstt in H1. destruct H1 as (k & Hk & Ht1 & Hs & Hc).
    apply Hchat in H2. destruct H2 as (k2 & Hk2 & Ht2 & Hc2 & Hs2).
    rewrite He, Ht, Hc2, Hs2, Hs, Hc, Ht2, Ht1, <- app_assoc. repeat split; try lia.
    exists (backoff_delays 0 k ++ backoff_delays 0 k2).
    destruct (backoff_delays_small k Hk), (backoff_delays_small k2 Hk2).
    rewrite length_app, sum_Z_app. repeat split; lia.
Qed.

End CallBudget.

Lemma request_call_budget_witness :
  (3 <= 0 + 3)%nat
  /\ (3 <= 0 + 3)%nat
  /\ (0 < 3 -> 0 < 3)%nat
  /\ exists delays,
      [1000; 2000; 1000; 2000] = [] ++ delays
      /\ (length delays <= 4)%nat /\ sum_Z delays <= 6000.
Proof.
  apply (request_call_budget
           (Demo.services (fun n => if (n <? 2)%nat then Demo.unreachable n else Demo.heard n)
                          Demo.unreachable)
           fst snd
           (fun p x => conj eq_refl eq_refl) (fun u x => conj eq_refl eq_refl)
           (mkRequest (Some (mkFile Demo.stored "audio-1700000000000-42.mp3" "answer.mp3" 2048))
                      (Some "What is photosynthesis?"))
           (mkWorld (0, 0)%nat {[Demo.stored]} ∅ [] [])
           (mkWorld (3, 3)%nat ∅ ∅
              [LogMsg "Transcription attempt 1 failed:" "read ECONNRESET";
               LogMsg "Transcription attempt 2 failed:" "read ECONNRESET";
               LogMsg "Evaluation attempt 1 failed:" "read ECONNRESET";
               LogMsg "Evaluation attempt 2 failed:" "read ECONNRESET";
               LogMsg "Evaluation attempt 3 failed:" "read ECONNRESET";
               LogErr "Error assessing audio:"
                 (mkError "Failed to complete evaluation after 3 attempts: read ECONNRESET")]
              [1000; 2000; 1000; 2000])
           (mkResponse 500
              (ErrorDetailsBody
                 "Network connection issue. Please check your internet connection and try again."
                 "Failed to complete evaluation after 3 attempts: read ECONNRESET"))).
  vm_compute. reflexivity.
Defined.

(** ** The upload layer and the error middleware *)

Lemma error_middleware_runs {X} (cfg : Config) (e : Error) (w : World X) :
  exists resp,
    error_middleware cfg e w = Some (Resolved resp, console_error "Server error:" e w)
    /\ (multer_code e = Some "LIMIT_FILE_SIZE" ->
        resp = mkResponse 413
                 (FileTooLargeBody "File too large"
                    "The uploaded file exceeds the maximum allowed size"
                    (maxFileSize cfg)))
    /\ (multer_code e <> Some "LIMIT_FILE_SIZE" ->
        resp = mkResponse 500 (ErrorMessageBody "Internal server error" (message e))).
Proof.
  unfold error_middleware, bind, effect.
  destruct (multer_code e) as [code|] eqn:Hc.
  - destruct (String.eqb code "LIMIT_FILE_SIZE") eqn:E.
    + apply String.eqb_eq in E. subst. eexists. split; [reflexivity|].
      split; [reflexivity | congruence].
    + apply String.eqb_neq in E. eexists. split; [reflexivity|].
      split; [congruence | reflexivity].
  - eexists. split; [reflexivity|]. split; [discriminate | reflexivity].
Qed.

(** X12. The error middleware logs the error and answers 413, with the
    configured limit as [maxSize], exactly for a multer error of code
    [LIMIT_FILE_SIZE]; every other error, a multer error of another code
    included, is answered 500 "Internal server error" with its message. *)
Theorem error_middleware_classifies {X} (cfg : Config) (e : Error) (w : World X) :
  exists resp,
    error_middleware cfg e w = Some (Resolved resp, console_error "Server error:" e w)
    /\ (status resp = 413 <-> multer_code e = Some "LIMIT_FILE_SIZE")
    /\ (status resp = 413 ->
        body resp = FileTooLargeBody "File too large"
                      "The uploaded file exceeds the maximum allowed size" (maxFileSize cfg))
    /\ (status resp <> 413 ->
        resp = mkResponse 500 (ErrorMessageBody "Internal server error" (message e))).
Proof.
  destruct (error_middleware_runs cfg e w) as (resp & H & H413 & H500).
  exists resp. split; [exact H|].
  destruct (decide (multer_code e = Some "LIMIT_FILE_SIZE")) as [Hc | Hc].
  - rewrite (H413 Hc). simpl. repeat split; auto. congruence.
  - rewrite (H500 Hc). simpl. repeat split; auto; try discriminate. congruence.
Qed.

(** X13. An audio part larger than the limit never reaches the handler:
    the answer is 413 with [maxSize] the configured limit, no file is left
    on disk, no collaborator is called and nothing is awaited; the error
    is logged. *)
Theorem oversized_upload_rejected {X} (cfg : Config) (svc : Services X)
    (now rnd : Z) (u : Upload) (q : option string) (w : World X) :
  fileFilter u = true -> maxFileSize cfg < upload_size u ->
  post_assessment cfg svc now rnd (mkMultipart (Some u) q) w =
    Some (Resolved (mkResponse 413
            (FileTooLargeBody "File too large"
               "The uploaded file exceeds the maximum allowed size" (maxFileSize cfg))),
          mkWorld (ext w) (disk w) (undeletable w)
            (console w ++ [LogErr "Server error:"
                             (mkErrorWith "File too large" (Some "LIMIT_FILE_SIZE"))])
            (timers w)).
Proof.
  intros Hf Hs. unfold post_assessment, upload_single. cbn [audio]. rewrite Hf.
  destruct (upload_size u >? maxFileSize cfg) eqn:E.
  - reflexivity.
  - rewrite Z.gtb_ltb in E. apply Z.ltb_ge in E. lia.
Qed.

Lemma oversized_upload_rejected_witness :
  post_assessment Demo.cfg (Demo.services Demo.heard (Demo.answers Demo.sound_score))
    1700000000000 42
    (mkMultipart (Some (mkUpload "long.wav" "audio/wav" 10485761)) (Some "Why?")) Demo.world =
    Some (Resolved (mkResponse 413
            (FileTooLargeBody "File too large"
               "The uploaded file exceeds the maximum allowed size" 10485760)),
          mkWorld (0, 0)%nat ∅ ∅
            [LogErr "Server error:" (mkErrorWith "File too large" (Some "LIMIT_FILE_SIZE"))]
            []).
Proof.
  apply (oversized_upload_rejected Demo.cfg
           (Demo.services Demo.heard (Demo.answers Demo.sound_score))
           1700000000000 42 (mkUpload "long.wav" "audio/wav" 10485761) (Some "Why?")
           Demo.world).
  - reflexivity.
  - vm_compute. reflexivity.
Defined.

(** X14. A part whose media type does not start with [audio/] is refused
    before anything is stored or called, whatever its size; the client
    gets a 500 "Internal server error" with the message of the filter. *)
Theorem non_audio_upload_rejected {X} (cfg : Config) (svc : Services X)
    (now rnd : Z) (u : Upload) (q : option string) (w : World X) :
  JS.startsWith (upload_mimetype u) "audio/" = false ->
  post_assessment cfg svc now rnd (mkMultipart (Some u) q) w =
    Some (Resolved (mkResponse 500
            (ErrorMessageBody "Internal server error" "Only audio files are allowed!")),
          mkWorld (ext w) (disk w) (undeletable w)
            (console w ++ [LogErr "Server error:" (mkError "Only audio files are allowed!")])
            (timers w)).
Proof.
  intros Hf. unfold post_assessment, upload_single, fileFilter. cbn [audio].
  rewrite Hf. reflexivity.
Qed.

Lemma non_audio_upload_rejected_witness :
  post_assessment Demo.cfg (Demo.services Demo.heard (Demo.answers Demo.sound_score))
    1700000000000 42
    (mkMultipart (Some (mkUpload "notes.pdf" "application/pdf" 12)) (Some "Why?")) Demo.world =
    Some (Resolved (mkResponse 500
            (ErrorMessageBody "Internal server error" "Only audio files are allowed!")),
          mkWorld (0, 0)%nat ∅ ∅
            [LogErr "Server error:" (mkError "Only audio files are allowed!")] []).
Proof.
  apply (non_audio_upload_rejected Demo.cfg
           (Demo.services Demo.heard (Demo.answers Demo.sound_score))
           1700000000000 42 (mkUpload "notes.pdf" "application/pdf" 12) (Some "Why?")
           Demo.world).
  reflexivity.
Defined.

(** X15. The route answers every request, whatever the upload layer and
    the collaborators do, with one of the statuses 200, 400, 413 and 500. *)
Theorem post_assessment_always_answers {X} (cfg : Config) (svc : Services X)
    (now rnd : Z) (m : Multipart) (w : World X) :
  exists resp w',
    post_assessment cfg svc now rnd m w = Some (Resolved resp, w')
    /\ (status resp = 200 \/ status resp = 400 \/ status resp = 413 \/ status resp = 500).
Proof.
  assert (Hhandler : forall req (w0 : World X), exists resp w',
             assessment_handler svc req w0 = Some (Resolved resp, w')
             /\ (status resp = 200 \/ status resp = 400
                 \/ status resp = 413 \/ status resp = 500)).
  { intros req w0.
    destruct (assessment_handler_course svc req w0) as (resp & w' & H & Hc).
    exists resp, w'. split; [exact H|].
    destruct Hc as [_ Hs _ | f q e w1 _ _ _ _ -> _ _ | f q t e w1 w2 _ _ _ _ _ -> _ _
                    | f q t r w1 w2 _ _ _ _ _ Hs _ _]; auto. }
  unfold post_assessment, upload_single.
  destruct (audio m) as [u|]; [|apply Hhandler].
  destruct (fileFilter u).
  2:{ destruct (error_middleware_runs cfg (mkError "Only audio files are allowed!") w)
        as (resp & H & _ & H500).
      exists resp. eexists. split; [exact H|]. rewrite H500 by discriminate. simpl. auto. }
  destruct (upload_size u >? maxFileSize cfg).
  { destruct (error_middleware_runs cfg
                (mkErrorWith "File too large" (Some "LIMIT_FILE_SIZE")) w)
      as (resp & H & H413 & _).
    exists resp. eexists. split; [exact H|]. rewrite H413 by reflexivity. simpl. auto. }
  unfold bind, effect, ret. apply Hhandler.
Qed.

(** ** Decimal numerals *)

Lemma horner_pos d : forall p, horner d (Zpos p) = Zpos (Pos.of_uint_acc d p).
Proof.
  induction d; intros p; simpl; try reflexivity;
    match goal with
    | |- horner _ ?a = _ =>
        match type of IHd with
        | forall p, _ = Z.pos (Pos.of_uint_acc _ p) =>
            rewrite <- IHd; f_equal; lia
        end
    end.
Qed.

Lemma horner_zero d : horner d 0 = Z.of_N (Pos.of_uint d).
Proof.
  induction d; cbn [horner Pos.of_uint Z.of_N]; try reflexivity;
    try (change (10 * 0 + 0) with 0; exact IHd);
    apply (horner_pos d).
Qed.

Lemma read_digits_numeral d : forall acc rest,
  no_leading_digit rest = true ->
  Env.read_digits 10 (NilEmpty.string_of_uint d +:+ rest) (Some acc) = Some (horner d acc).
Proof.
  induction d; intros acc rest Hrest; simpl; try (apply IHd; exact Hrest).
  destruct rest as [|c rest]; [reflexivity|]. simpl in *.
  destruct (Env.digit c) as [k|]; [|reflexivity].
  destruct (k <? 10); [discriminate | reflexivity].
Qed.

Lemma unorm_head_zero l : forall l', Decimal.unorm l = Decimal.D0 l' -> l' = Decimal.Nil.
Proof.
  induction l; intros l' H; simpl in H; try discriminate.
  - inversion H. reflexivity.
  - apply IHl, H.
Qed.

(** The numeral of a positive number is not empty and does not start
    with a zero. *)
Lemma to_uint_head p :
  match Pos.to_uint p with
  | Decimal.Nil | Decimal.D0 _ => False
  | _ => True
  end.
Proof.
  pose proof (Unsigned.to_uint_nonnil p) as Hnil.
  pose proof (Unsigned.to_uint_nonzero p) as Hzero.
  pose proof (Unsigned.to_of (Pos.to_uint p)) as Hnorm.
  rewrite Unsigned.of_to in Hnorm. change (N.to_uint (N.pos p)) with (Pos.to_uint p) in Hnorm.
  destruct (Pos.to_uint p) as [|l| | | | | | | | |]; try exact I; [congruence|].
  simpl in Hnorm. symmetry in Hnorm. apply unorm_head_zero in Hnorm. subst.
  apply Hzero. reflexivity.
Qed.

Lemma parseInt_digit_led (c : ascii) (s : string) :
  In c ["1"; "2"; "3"; "4"; "5"; "6"; "7"; "8"; "9"]%char ->
  Env.parseInt (Some (String c s))
  = match Env.read_digits 10 (String c s) None with
    | Some n => Some n
    | None => None
    end
  /\ Env.parseInt (Some (String "-" (String c s)))
     = match Env.read_digits 10 (String c s) None with
       | Some n => Some (- n)
       | None => None
       end.
Proof.
  intros H. repeat (destruct H as [<- | H]; [split; reflexivity|]). destruct H.
Qed.

Lemma read_digits_first (c : ascii) (s : string) :
  In c ["1"; "2"; "3"; "4"; "5"; "6"; "7"; "8"; "9"]%char ->
  Env.read_digits 10 (String c s) None
  = Env.read_digits 10 s (Some (Z.of_N (N_of_ascii c) - 48)).
Proof.
  intros H. repeat (destruct H as [<- | H]; [reflexivity|]). destruct H.
Qed.

Lemma read_digits_positive p rest :
  no_leading_digit rest = true ->
  exists c s,
    NilEmpty.string_of_uint (Pos.to_uint p) +:+ rest = String c s
    /\ In c ["1"; "2"; "3"; "4"; "5"; "6"; "7"; "8"; "9"]%char
    /\ Env.read_digits 10 (String c s) None = Some (Zpos p).
Proof.
  intros Hrest.
  pose proof (to_uint_head p) as Hhead.
  pose proof (Unsigned.of_to p) as Hval.
  destruct (Pos.to_uint p) as [|l|l|l|l|l|l|l|l|l|l]; try contradiction;
    (eexists _, _; split; [reflexivity|]);
    (split; [simpl; tauto|]);
    match goal with
    | |- Env.read_digits 10 (String ?c ?s) None = _ =>
        rewrite (read_digits_first c s ltac:(simpl; tauto))
    end;
    rewrite read_digits_numeral by exact Hrest;
    cbn [Pos.of_uint] in Hval; injection Hval as Hval;
    match goal with
    | |- Some (horner _ ?k) = _ =>
        let k' := eval vm_compute in k in change k with k'
    end;
    rewrite horner_pos, Hval; reflexivity.
Qed.

Lemma Number_toString_positive p :
  JS.Number_toString (Zpos p) = NilEmpty.string_of_uint (Pos.to_uint p).
Proof.
  unfold JS.Number_toString. cbn [Z.to_int NilZero.string_of_int].
  unfold NilZero.string_of_uint.
  pose proof (Unsigned.to_uint_nonnil p). destruct (Pos.to_uint p); congruence.
Qed.

Lemma Number_toString_negative p :
  JS.Number_toString (Zneg p) = String "-" (NilEmpty.string_of_uint (Pos.to_uint p)).
Proof.
  unfold JS.Number_toString. cbn [Z.to_int NilZero.string_of_int].
  unfold NilZero.string_of_uint.
  pose proof (Unsigned.to_uint_nonnil p). destruct (Pos.to_uint p); congruence.
Qed.

(** [parseInt] reads back what a template literal prints for an integer,
    whatever follows it that is not a digit. *)
Lemma parseInt_Number_toString (n : Z) (rest : string) :
  n <> 0 -> no_leading_digit rest = true ->
  Env.parseInt (Some (JS.Number_toString n +:+ rest)) = Some n.
Proof.
  intros Hn Hrest. destruct n as [|p|p]; [congruence| |].
  - rewrite Number_toString_positive.
    destruct (read_digits_positive p rest Hrest) as (c & s & -> & Hc & Hr).
    rewrite (proj1 (parseInt_digit_led c s Hc)), Hr. reflexivity.
  - rewrite Number_toString_negative.
    destruct (read_digits_positive p rest Hrest) as (c & s & Heq & Hc & Hr).
    change (Env.parseInt
              (Some (String "-" (NilEmpty.string_of_uint (Pos.to_uint p) +:+ rest)))
            = Some (Z.neg p)).
    rewrite Heq, (proj2 (parseInt_digit_led c s Hc)), Hr. reflexivity.
Qed.

(** ** The configuration read from the environment *)

(** X16. The upload limit is never zero: an unset [MAX_FILE_SIZE], one
    [parseInt] cannot read and one that reads as zero all give the ten
    mebibytes of the default. *)
Theorem max_file_size_falls_back (env : gmap string string) :
  Env.max_file_size env <> 0
  /\ (env !! "MAX_FILE_SIZE" = None -> Env.max_file_size env = 10485760)
  /\ (Env.parseInt (env !! "MAX_FILE_SIZE") = None
      \/ Env.parseInt (env !! "MAX_FILE_SIZE") = Some 0 ->
      Env.max_file_size env = 10485760)
  /\ (forall n, Env.parseInt (env !! "MAX_FILE_SIZE") = Some n -> n <> 0 ->
                Env.max_file_size env = n).
Proof.
  unfold Env.max_file_size. repeat split.
  - destruct (Env.parseInt _) as [[|p|p]|]; simpl; discriminate.
  - intros ->. reflexivity.
  - intros [-> | ->]; reflexivity.
  - intros n -> Hn. destruct n; [congruence | reflexivity | reflexivity].
Qed.

(** X17. A [MAX_FILE_SIZE] that starts with the decimal numeral of a
    non-zero integer (one a JavaScript number holds exactly) is read as
    that integer, whatever follows the digits: a unit such as [mb] is
    ignored, not applied. *)
Theorem max_file_size_reads_leading_digits (env : gmap string string)
    (n : Z) (rest : string) (extname : string -> string) :
  n <> 0 -> Z.abs n < 2 ^ 53 -> no_leading_digit rest = true ->
  env !! "MAX_FILE_SIZE" = Some (JS.Number_toString n +:+ rest) ->
  Env.max_file_size env = n /\ maxFileSize (Env.load env extname) = n.
Proof.
  intros Hn _ Hrest Henv. unfold Env.load. cbn [maxFileSize].
  unfold Env.max_file_size. rewrite Henv, (parseInt_Number_toString n rest Hn Hrest).
  destruct n; [congruence | auto | auto].
Qed.

Lemma max_file_size_reads_leading_digits_witness :
  Env.max_file_size {[ "MAX_FILE_SIZE" := "10mb" ]} = 10
  /\ maxFileSize (Env.load {[ "MAX_FILE_SIZE" := "10mb" ]} (fun _ => ".mp3")) = 10.
Proof.
  apply (max_file_size_reads_leading_digits {[ "MAX_FILE_SIZE" := "10mb" ]} 10 "mb").
  - discriminate.
  - reflexivity.
  - reflexivity.
  - reflexivity.
Defined.

(** ** Names of stored uploads *)

Lemma all_digits_numeral d : all_digits (NilEmpty.string_of_uint d) = true.
Proof. induction d; simpl; auto. Qed.

Lemma all_digits_Number_toString n : 0 <= n -> all_digits (JS.Number_toString n) = true.
Proof.
  intros Hn. destruct n as [|p|p]; [reflexivity | | lia].
  rewrite Number_toString_positive. apply all_digits_numeral.
Qed.

Lemma split_at_dash u : forall u' r r',
  all_digits u = true -> all_digits u' = true ->
  u +:+ String "-" r = u' +:+ String "-" r' -> u = u' /\ r = r'.
Proof.
  induction u as [|c u IH]; intros [|c' u'] r r' Hu Hu' H;
    rewrite ?append_cons in H; change (EmptyString +:+ ?s) with s in H.
  - inversion H. auto.
  - inversion H; subst. discriminate.
  - inversion H; subst. discriminate.
  - inversion H; subst. cbn [all_digits] in Hu, Hu'. apply andb_true_iff in Hu, Hu'.
    destruct (IH u' r r') as [-> ->]; tauto.
Qed.

Lemma append_cons c a b : String c a +:+ b = String c (a +:+ b).
Proof. reflexivity. Qed.

Lemma append_length a b : String.length (a +:+ b) = (String.length a + String.length b)%nat.
Proof.
  induction a as [|c a IH]; [reflexivity|].
  rewrite append_cons. cbn [String.length Nat.add]. rewrite IH. reflexivity.
Qed.

Lemma append_inv_tail s1 : forall s2 e, s1 +:+ e = s2 +:+ e -> s1 = s2.
Proof.
  induction s1 as [|c s1 IH]; intros [|c' s2] e H.
  - reflexivity.
  - apply (f_equal String.length) in H. rewrite !append_length in H. simpl in H. lia.
  - apply (f_equal String.length) in H. rewrite !append_length in H. simpl in H. lia.
  - rewrite !append_cons in H. inversion H; subst. f_equal. eapply IH. eassumption.
Qed.

Lemma append_inv_head a : forall s1 s2, a +:+ s1 = a +:+ s2 -> s1 = s2.
Proof.
  induction a as [|c a IH]; intros s1 s2 H; [exact H|].
  rewrite !append_cons in H. inversion H. auto.
Qed.

Lemma append_assoc3 a b c : (a +:+ b) +:+ c = a +:+ (b +:+ c).
Proof.
  induction a as [|x a IH]; [reflexivity|]. rewrite !append_cons, IH. reflexivity.
Qed.

Lemma to_int_printable n : Z.to_int n <> Decimal.Pos Decimal.Nil /\ Z.to_int n <> Decimal.Neg Decimal.Nil.
Proof.
  destruct n as [|p|p]; simpl; split; try discriminate;
    intros H; inversion H as [H0]; exact (Unsigned.to_uint_nonnil p H0).
Qed.

Lemma Number_toString_inj a b : JS.Number_toString a = JS.Number_toString b -> a = b.
Proof.
  unfold JS.Number_toString. intros H.
  apply (f_equal NilZero.int_of_string) in H.
  destruct (to_int_printable a), (to_int_printable b).
  rewrite !NilZero.isi in H by assumption. inversion H as [Heq].
  rewrite <- (DecimalZ.of_to a), <- (DecimalZ.of_to b), Heq. reflexivity.
Qed.

(** X18. Two uploads with the same original name are stored under the
    same path only if they arrived in the same millisecond ([Date.now()])
    and drew the same random number ([Math.round(Math.random() * 1E9)]):
    otherwise their files, and so their clean-ups, do not meet. *)
Theorem storage_path_injective (cfg : Config) (u : Upload) (now rnd now' rnd' : Z) :
  0 <= now < 2 ^ 53 -> 0 <= now' < 2 ^ 53 ->
  0 <= rnd <= 10 ^ 9 -> 0 <= rnd' <= 10 ^ 9 ->
  storage_path cfg (storage_filename cfg now rnd u)
    = storage_path cfg (storage_filename cfg now' rnd' u) ->
  now = now' /\ rnd = rnd'.
Proof.
  intros [Hn _] [Hn' _] _ _ H. unfold storage_path, storage_filename in H.
  apply append_inv_head in H. apply (append_inv_head "/") in H.
  apply (append_inv_head "audio-") in H.
  rewrite !append_assoc3 in H. pose proof H as H0.
  apply split_at_dash in H0; try (apply all_digits_Number_toString; assumption).
  destruct H0 as [Ha Hb]. apply append_inv_tail in Hb.
  split; apply Number_toString_inj; assumption.
Qed.

Lemma storage_path_injective_witness :
  1700000000000 = 1700000000000 /\ 42 = 42.
Proof.
  apply (storage_path_injective Demo.cfg Demo.upload 1700000000000 42 1700000000000 42).
  - lia.
  - lia.
  - lia.
  - lia.
  - reflexivity.
Defined.

(** ** The set-up script *)

Ltac run_setup :=
  cbv [SetupScript.main SetupScript.setup SetupScript.confirm_overwrite
       Setup.andThen Setup.question Setup.print Setup.fs_existsSync
       Setup.fs_writeFileSync Setup.finish Setup.pure
       Setup.stdin Setup.files Setup.write_error Setup.printed tl].

Ltac setup_cases :=
  repeat match goal with
         | |- context [match ?l with [] => _ | _ :: _ => _ end] =>
             is_var l; destruct l; cbn [Setup.stdin Setup.files Setup.write_error Setup.printed tl]
         | |- context [if ?b then _ else _] => destruct b eqn:?;
             cbn [Setup.stdin Setup.files Setup.write_error Setup.printed tl]
         | |- context [match ?o with Some _ => _ | None => _ end] =>
             is_var o; destruct o; cbn [Setup.stdin Setup.files Setup.write_error Setup.printed tl]
         end.

(** X19. Whatever is typed, the script changes no file unless it runs to
    completion, and then it changes the file [.env] alone: cancelling,
    giving no key, a refused write and an input that ends early all leave
    the disk as it was. *)
Theorem setup_writes_env_only (t : Setup.Terminal) :
  let (ending, t') := SetupScript.main t in
  (ending <> Setup.Completed -> Setup.files t' = Setup.files t)
  /\ (ending = Setup.Completed ->
      Setup.write_error t = None
      /\ exists content, Setup.files t' = <[".env" := content]> (Setup.files t)).
Proof.
  destruct t as [input files werr out]. run_setup. setup_cases;
    (split; intros H;
       [first [reflexivity | congruence]
       | first [discriminate | split; [reflexivity | eexists; reflexivity]]]).
Qed.

(** X20. With a [.env] in place, the script goes on only when the answer
    to its first question is [y] or [yes] in any letter case, nothing
    more and nothing less (a trailing blank is a no); otherwise it ends at
    once, the file kept and the remaining input unread. *)
Theorem setup_overwrite_needs_yes (t : Setup.Terminal) (old answer : string)
    (rest : list string) :
  Setup.files t !! ".env" = Some old ->
  Setup.stdin t = answer :: rest ->
  let confirmed := JS.toLowerCase answer = "y" \/ JS.toLowerCase answer = "yes" in
  (fst (SetupScript.main t) = Setup.Cancelled <-> ~ confirmed)
  /\ (~ confirmed ->
      SetupScript.main t =
        (Setup.Cancelled,
         Setup.mkTerminal rest (Setup.files t) (Setup.write_error t)
           (Setup.printed t
            ++ ["🎤 AI Audio Assessment System Setup" +:+ newline;
                "This script will help you configure your environment variables." +:+ newline;
                "A .env file already exists. Do you want to overwrite it? (y/N): ";
                "Setup cancelled. Your existing .env file has been preserved."]))).
Proof.
  intros Henv Hin confirmed. subst confirmed.
  destruct t as [input files werr out]. simpl in Henv, Hin. subst input.
  assert (Hex : bool_decide (is_Some (files !! ".env")) = true).
  { apply bool_decide_eq_true. rewrite Henv. eauto. }
  run_setup. rewrite Hex. cbn [Setup.stdin Setup.files Setup.write_error Setup.printed tl].
  destruct (String.eqb_spec (JS.toLowerCase answer) "y") as [Ey | Ey];
    destruct (String.eqb_spec (JS.toLowerCase answer) "yes") as [Eyes | Eyes];
    cbn [negb andb].
  1-3: (split; [|intros Hn; exfalso; apply Hn; tauto]);
       (split; [|intros Hn; exfalso; apply Hn; tauto]);
       intros Hc; exfalso; revert Hc; setup_cases; cbn [fst]; discriminate.
  split.
  - cbn [fst]. split; [intros _ [H | H]; congruence | reflexivity].
  - intros _. rewrite <- !app_assoc. reflexivity.
Qed.

Lemma setup_overwrite_needs_yes_witness :
  (fst (SetupScript.main
          (Setup.mkTerminal ["y "; "sk-test"] {[ ".env" := "PORT=1" ]} None []))
   = Setup.Cancelled
   <-> ~ (JS.toLowerCase "y " = "y" \/ JS.toLowerCase "y " = "yes"))
  /\ (~ (JS.toLowerCase "y " = "y" \/ JS.toLowerCase "y " = "yes") ->
      SetupScript.main (Setup.mkTerminal ["y "; "sk-test"] {[ ".env" := "PORT=1" ]} None []) =
        (Setup.Cancelled,
         Setup.mkTerminal ["sk-test"] {[ ".env" := "PORT=1" ]} None
           ([] ++ ["🎤 AI Audio Assessment System Setup" +:+ newline;
                   "This script will help you configure your environment variables."
                   +:+ newline;
                   "A .env file already exists. Do you want to overwrite it? (y/N): ";
                   "Setup cancelled. Your existing .env file has been preserved."]))).
Proof.
  refine (setup_overwrite_needs_yes
            (Setup.mkTerminal ["y "; "sk-test"] {[ ".env" := "PORT=1" ]} None [])
            "PORT=1" "y " ["sk-test"] _ _).
  - reflexivity.
  - reflexivity.
Defined.

(** X21. Without a [.env] in place, an API key that is empty or white
    space only ends the script after its first question: nothing is
    written and no further question is asked. *)
Theorem setup_requires_key (t : Setup.Terminal) (key : string) (rest : list string) :
  Setup.files t !! ".env" = None ->
  Setup.stdin t = key :: rest ->
  Env.trimStart key = EmptyString ->
  SetupScript.main t =
    (Setup.KeyRequired,
     Setup.mkTerminal rest (Setup.files t) (Setup.write_error t)
       (Setup.printed t
        ++ ["🎤 AI Audio Assessment System Setup" +:+ newline;
            "This script will help you configure your environment variables." +:+ newline;
            newline +:+ "📝 Configuration Options:" +:+ newline;
            "Enter your OpenAI API key: ";
            "❌ OpenAI API key is required!"])).
Proof.
  intros Henv Hin Hblank.
  destruct t as [input files werr out]. simpl in Henv, Hin. subst input.
  assert (Hex : bool_decide (is_Some (files !! ".env")) = false).
  { apply bool_decide_eq_false. rewrite Henv. intros [x Hx]. discriminate. }
  run_setup. rewrite Hex. cbn [Setup.stdin Setup.files Setup.write_error Setup.printed tl].
  assert (Ht : Setup.trim key = EmptyString)
    by (unfold Setup.trim; rewrite Hblank; reflexivity).
  rewrite Ht. change (JS.truthy (Some EmptyString)) with false. cbn [negb].
  rewrite <- !app_assoc. reflexivity.
Qed.

Lemma setup_requires_key_witness :
  SetupScript.main (Setup.mkTerminal ["   "; "8080"] ∅ None []) =
    (Setup.KeyRequired,
     Setup.mkTerminal ["8080"] ∅ None
       ([] ++ ["🎤 AI Audio Assessment System Setup" +:+ newline;
               "This script will help you configure your environment variables." +:+ newline;
               newline +:+ "📝 Configuration Options:" +:+ newline;
               "Enter your OpenAI API key: ";
               "❌ OpenAI API key is required!"])).
Proof.
  refine (setup_requires_key (Setup.mkTerminal ["   "; "8080"] ∅ None [])
            "   " ["8080"] _ _ _).
  - reflexivity.
  - reflexivity.
  - reflexivity.
Defined.

(** X22. A run that is given a key and answers for the three settings
    writes [.env] with exactly the text of the template; an empty answer
    stands for the default, so that blank answers write the same file as
    typing 3000, development and 10. *)
Theorem setup_writes_template (t : Setup.Terminal)
    (key port env size : string) (rest : list string) :
  Setup.files t !! ".env" = None ->
  Setup.write_error t = None ->
  Setup.stdin t = key :: port :: env :: size :: rest ->
  JS.truthy (Some (Setup.trim key)) = true ->
  let port' := Env.string_or (Some port) "3000" in
  let env' := Env.string_or (Some env) "development" in
  let size' := Env.string_or (Some size) "10" in
  fst (SetupScript.main t) = Setup.Completed
  /\ Setup.stdin (snd (SetupScript.main t)) = rest
  /\ Setup.files (snd (SetupScript.main t))
     = <[".env" := Setup.envContent key port' env' size']> (Setup.files t)
  /\ (port = EmptyString -> port' = "3000")
  /\ (env = EmptyString -> env' = "development")
  /\ (size = EmptyString -> size' = "10").
Proof.
  intros Henv Hw Hin Hkey port' env' size'.
  destruct t as [input files werr out]. simpl in Henv, Hw, Hin. subst input werr.
  assert (Hex : bool_decide (is_Some (files !! ".env")) = false).
  { apply bool_decide_eq_false. rewrite Henv. intros [x Hx]. discriminate. }
  run_setup. rewrite Hex. cbn [Setup.stdin Setup.files Setup.write_error Setup.printed tl].
  rewrite Hkey. cbn [negb Setup.stdin Setup.files Setup.write_error Setup.printed tl fst snd].
  repeat split; try reflexivity; intros ->; reflexivity.
Qed.

Lemma setup_writes_template_witness :
  fst (SetupScript.main (Setup.mkTerminal ["sk-test"; EmptyString; EmptyString; EmptyString] ∅ None []))
  = Setup.Completed
  /\ Setup.stdin (snd (SetupScript.main (Setup.mkTerminal ["sk-test"; EmptyString; EmptyString; EmptyString] ∅ None [])))
     = []
  /\ Setup.files (snd (SetupScript.main (Setup.mkTerminal ["sk-test"; EmptyString; EmptyString; EmptyString] ∅ None [])))
     = <[".env" := Setup.envContent "sk-test" "3000" "development" "10"]> ∅
  /\ (EmptyString = EmptyString -> "3000" = "3000")
  /\ (EmptyString = EmptyString -> "development" = "development")
  /\ (EmptyString = EmptyString -> "10" = "10").
Proof.
  refine (setup_writes_template (Setup.mkTerminal ["sk-test"; EmptyString; EmptyString; EmptyString] ∅ None [])
            "sk-test" EmptyString EmptyString EmptyString [] _ _ _ _).
  - reflexivity.
  - reflexivity.
  - reflexivity.
  - reflexivity.
Defined.

Lemma append_nil_r s : s +:+ EmptyString = s.
Proof. induction s as [|c s IH]; [reflexivity|]. rewrite append_cons, IH. reflexivity. Qed.

(** X23. What the script writes after [MAX_FILE_SIZE=] and what the
    server makes of it: an answer that [parseInt] reads as a non-zero
    number of megabytes gives the server that many times 1048576 bytes
    as its limit; an answer it cannot read (the script writes [NaN]) or
    reads as zero gives the ten mebibytes of the server's default.
    (Stated where the product is a number JavaScript holds exactly.) *)
Theorem setup_limit_reaches_server (answer : string) :
  match Env.parseInt (Some answer) with
  | Some n => Z.abs n * 1048576 < 2 ^ 53
  | None => True
  end ->
  Env.max_file_size {[ "MAX_FILE_SIZE" := Setup.megabytes answer ]}
  = match Env.parseInt (Some answer) with
    | Some n => if n =? 0 then 10485760 else n * 1048576
    | None => 10485760
    end.
Proof.
  intros _. unfold Env.max_file_size, Setup.megabytes.
  rewrite lookup_singleton_eq.
  destruct (Env.parseInt (Some answer)) as [n|]; [|reflexivity].
  destruct (n =? 0) eqn:E.
  - apply Z.eqb_eq in E. subst. reflexivity.
  - apply Z.eqb_neq in E.
    rewrite <- (append_nil_r (JS.Number_toString (n * 1024 * 1024))).
    rewrite parseInt_Number_toString by (lia || reflexivity).
    unfold Env.number_or. destruct (n * 1024 * 1024) eqn:Hm; lia.
Qed.

Lemma setup_limit_reaches_server_witness :
  Env.max_file_size {[ "MAX_FILE_SIZE" := Setup.megabytes "25" ]} = 26214400.
Proof.
  apply (setup_limit_reaches_server "25"). vm_compute. reflexivity.
Defined.
